(** * The mock render-state store of react-three-fiber's test renderer

    A shallow embedding of [src/test-renderer/createMockStore.ts]:
    the viewport computation, the zustand state with its three setters,
    the performance governor with its recovery timer, and the frame
    subscriber registry kept in the shared [internal] object.

    JavaScript numbers are IEEE 754 binary64 values, which is what Rocq's
    primitive [float] is, so arithmetic on sizes, zoom factors and pixel
    ratios is modelled by the primitive operations themselves.  Render
    priorities and the [manual] counter are whole numbers and are modelled
    in [Z]; timer delays and the host clock are whole milliseconds in [N]. *)

From Stdlib Require Import ZArith NArith List Bool Lia Floats Sorted Permutation.
Import ListNotations.

Set Implicit Arguments.

(** ** JavaScript built-ins used by the store *)

Module JS.

(** [Math.PI], the binary64 value nearest to pi. *)
Definition Math_PI : float := 0x1.921fb54442d18p+1%float.

(** [Math.min(a, b)]: NaN when either argument is NaN, and [-0] counts as
    smaller than [+0]. *)
Definition Math_min (a b : float) : float :=
  if is_nan a || is_nan b then nan
  else if (a <? b)%float then a
  else if (b <? a)%float then b
  else if get_sign a then a else b.

(** [Math.max(a, b)]: NaN when either argument is NaN, and [+0] counts as
    larger than [-0]. *)
Definition Math_max (a b : float) : float :=
  if is_nan a || is_nan b then nan
  else if (a <? b)%float then b
  else if (b <? a)%float then a
  else if get_sign a then b else a.

(** Truthiness of a whole number, as tested by [if (priority)]. *)
Definition truthy (n : Z) : bool := negb (n =? 0)%Z.

(** [Array.prototype.sort(compareFn)] is a stable sort: an element goes in
    front of the first later element that does not compare below it. *)
Section Sort.
Variable A : Type.
Variable compareFn : A -> A -> Z.

Fixpoint insert (a : A) (l : list A) : list A :=
  match l with
  | [] => [a]
  | b :: l' => if (compareFn a b <=? 0)%Z then a :: l else b :: insert a l'
  end.

Definition Array_sort (l : list A) : list A := fold_right insert [] l.
End Sort.

(** A destructuring default, [{ name = d } = props]. *)
Definition default (A : Type) (d : A) (o : option A) : A :=
  match o with Some a => a | None => d end.

End JS.

(** ** The part of three.js the store touches *)

Module THREE.

Record Vector3 := vec3 { x : float; y : float; z : float }.

(** [Vector3.distanceToSquared] and [Vector3.distanceTo]. *)
Definition distanceToSquared (v w : Vector3) : float :=
  let dx := (x v - x w)%float in
  let dy := (y v - y w)%float in
  let dz := (z v - z w)%float in
  (dx * dx + dy * dy + dz * dz)%float.

Definition distanceTo (v w : Vector3) : float := sqrt (distanceToSquared v w).

(** A camera is orthographic or perspective.  [position] stands for what
    [getWorldPosition] yields; [zoom] and [fov] are the only other
    properties the viewport computation reads. *)
Inductive Camera :=
| OrthographicCamera (position : Vector3) (zoom : float)
| PerspectiveCamera (position : Vector3) (fov : float) (zoom : float).

Definition getWorldPosition (c : Camera) : Vector3 :=
  match c with
  | OrthographicCamera p _ => p
  | PerspectiveCamera p _ _ => p
  end.

(** [camera.zoom] *)
Definition zoom (c : Camera) : float :=
  match c with
  | OrthographicCamera _ z => z
  | PerspectiveCamera _ _ z => z
  end.

(** [camera.fov]; an orthographic camera has no such property, and
    [undefined] in arithmetic is NaN. *)
Definition fov (c : Camera) : float :=
  match c with
  | OrthographicCamera _ _ => nan
  | PerspectiveCamera _ f _ => f
  end.

End THREE.

(** Modelled from the spec: [isOrthographicCamera] lives in [core/store],
    which is imported but not part of the sources at hand; the spec's
    viewport calculator branches on "camera is orthographic". *)
Definition isOrthographicCamera (c : THREE.Camera) : bool :=
  match c with
  | THREE.OrthographicCamera _ _ => true
  | THREE.PerspectiveCamera _ _ _ => false
  end.

(** ** State slices *)

Module Size.
Record t := mk { width : float; height : float }.
End Size.

(** What [getCurrentViewport] returns. *)
Module Geometry.
Record t := mk
  { width : float; height : float; factor : float;
    distance : float; aspect : float }.
End Geometry.

Module Viewport.
Record t := mk
  { initialPixelRatio : float; pixelRatio : float;
    width : float; height : float; aspect : float;
    distance : float; factor : float }.

(** [{ ...viewport, ...geometry }] *)
Definition spread (v : t) (g : Geometry.t) : t :=
  {| initialPixelRatio := initialPixelRatio v;
     pixelRatio := pixelRatio v;
     width := Geometry.width g;
     height := Geometry.height g;
     aspect := Geometry.aspect g;
     distance := Geometry.distance g;
     factor := Geometry.factor g |}.

(** [{ ...viewport, pixelRatio }] *)
Definition withPixelRatio (v : t) (r : float) : t :=
  {| initialPixelRatio := initialPixelRatio v;
     pixelRatio := r;
     width := width v; height := height v; aspect := aspect v;
     distance := distance v; factor := factor v |}.
End Viewport.

Module Performance.
Record t := mk
  { current : float; min : float; max : float; debounce : float }.

(** [{ ...performance, current }] *)
Definition withCurrent (p : t) (c : float) : t :=
  {| current := c; min := min p; max := max p; debounce := debounce p |}.

(** The [performance] prop: any subset of the four numbers. *)
Record override := mkOverride
  { o_current : option float; o_min : option float;
    o_max : option float; o_debounce : option float }.

Definition noOverride : override := mkOverride None None None None.

(** [{ current: 1, min: 0.5, max: 1, debounce: 200, ...performance }] *)
Definition initial (o : override) : t :=
  {| current := JS.default 1%float (o_current o);
     min := JS.default 0.5%float (o_min o);
     max := JS.default 1%float (o_max o);
     debounce := JS.default 200%float (o_debounce o) |}.
End Performance.

(** [PixelRatio = number | [number, number]] *)
Inductive PixelRatio :=
| Scalar (r : float)
| Pair (a b : float).

(** A frame subscriber: the callback ref (an object identity) and its
    render priority. *)
Definition Ref := nat.

Record Subscription := { ref : Ref; priority : Z }.

(** The [internal] object.  It is created once and mutated in place; every
    state snapshot points at the same object. *)
Module Internal.
Record t := mk { manual : Z; subscribers : list Subscription }.
Definition initial : t := {| manual := 0; subscribers := [] |}.
End Internal.

(** The zustand state object, replaced as a whole by every [set]. *)
Record RootState := mkRootState
  { camera : THREE.Camera;
    vr : bool; noninteractive : bool; linear : bool;
    frameloop : bool; updateCamera : bool;
    performance : Performance.t;
    size : Size.t;
    viewport : Viewport.t }.

(** ** The host: timers and the window *)

Module Host.
Record Timer := { id : nat; due : N }.

(** [fired] logs the times at which timer callbacks have run. *)
Record t := mk
  { devicePixelRatio : float;
    now : N;
    pending : list Timer;
    nextId : nat;
    fired : list N }.

Definition boot (dpr : float) : t :=
  {| devicePixelRatio := dpr; now := 0; pending := []; nextId := 0; fired := [] |}.

(** [setTimeout(callback, delay)]: a fresh id, due [delay] ms from now. *)
Definition setTimeout (delay : N) (h : t) : nat * t :=
  (nextId h,
   {| devicePixelRatio := devicePixelRatio h;
      now := now h;
      pending := pending h ++ [ {| id := nextId h; due := (now h + delay)%N |} ];
      nextId := S (nextId h);
      fired := fired h |}).

(** [clearTimeout(handle)]: drops the timer if it is still pending;
    [undefined] and stale handles are ignored. *)
Definition clearTimeout (handle : option nat) (h : t) : t :=
  match handle with
  | None => h
  | Some i =>
      {| devicePixelRatio := devicePixelRatio h;
         now := now h;
         pending := filter (fun tm => negb (Nat.eqb (id tm) i)) (pending h);
         nextId := nextId h;
         fired := fired h |}
  end.
End Host.

(** ** The store *)

(** The store as a whole: the current zustand state, the shared [internal]
    object, the variables the closures capture ([camera] of line 86 and
    [performanceTimeout]), the host, and the states published to listeners
    so far (zustand notifies synchronously after each [set]). *)
Record Store := mkStore
  { state : RootState;
    internal : Internal.t;
    closureCamera : THREE.Camera;
    performanceTimeout : option nat;
    host : Host.t;
    published : list RootState }.

(** zustand's [set(fn)]: one replacement of the state, one notification. *)
Definition set (fn : RootState -> RootState) (s : Store) : Store :=
  let st := fn (state s) in
  {| state := st;
     internal := internal s;
     closureCamera := closureCamera s;
     performanceTimeout := performanceTimeout s;
     host := host s;
     published := published s ++ [st] |}.

Definition defaultTarget : THREE.Vector3 := THREE.vec3 0 0 0.

(** The helper of lines 107-111, shared by construction and the setter. *)
Definition clampPixelRatio (devicePixelRatio : float) (pixelRatio : PixelRatio) : float :=
  match pixelRatio with
  | Pair a b => JS.Math_max (JS.Math_min a devicePixelRatio) b
  | Scalar r => r
  end.

Section ViewportCalculator.

(** [Math.tan] is only specified up to an implementation-approximated
    result, so it stays a parameter. *)
Variable Math_tan : float -> float.

Definition getCurrentViewport
    (camera : THREE.Camera) (target : THREE.Vector3) (size : Size.t) : Geometry.t :=
  let width := Size.width size in
  let height := Size.height size in
  let aspect := (width / height)%float in
  let distance := THREE.distanceTo (THREE.getWorldPosition camera) target in
  if isOrthographicCamera camera then
    {| Geometry.width := (width / THREE.zoom camera)%float;
       Geometry.height := (height / THREE.zoom camera)%float;
       Geometry.factor := 1%float;
       Geometry.distance := distance;
       Geometry.aspect := aspect |}
  else
    let fov := (THREE.fov camera * JS.Math_PI / 180)%float in
    let h := (2 * Math_tan (fov / 2) * distance)%float in
    let w := (h * (width / height))%float in
    {| Geometry.width := w;
       Geometry.height := h;
       Geometry.factor := (width / w)%float;
       Geometry.distance := distance;
       Geometry.aspect := aspect |}.

(** [setSize]: note that [camera] here is the constant of line 86, not
    [get().camera]. *)
Definition setSize (width height : float) (s : Store) : Store :=
  let size := Size.mk width height in
  set (fun st =>
         {| camera := camera st;
            vr := vr st; noninteractive := noninteractive st; linear := linear st;
            frameloop := frameloop st; updateCamera := updateCamera st;
            performance := performance st;
            size := size;
            viewport :=
              Viewport.spread (viewport st)
                (getCurrentViewport (closureCamera s) defaultTarget size) |}) s.

End ViewportCalculator.

Definition setCamera (c : THREE.Camera) (s : Store) : Store :=
  set (fun st =>
         {| camera := c;
            vr := vr st; noninteractive := noninteractive st; linear := linear st;
            frameloop := frameloop st; updateCamera := updateCamera st;
            performance := performance st;
            size := size st;
            viewport := viewport st |}) s.

Definition setPixelRatio (pixelRatio : PixelRatio) (s : Store) : Store :=
  set (fun st =>
         {| camera := camera st;
            vr := vr st; noninteractive := noninteractive st; linear := linear st;
            frameloop := frameloop st; updateCamera := updateCamera st;
            performance := performance st;
            size := size st;
            viewport :=
              Viewport.withPixelRatio (viewport st)
                (clampPixelRatio (Host.devicePixelRatio (host s)) pixelRatio) |}) s.

(** ** Construction *)

(** The [camera] prop is either a camera instance, used as it is, or a bag of
    options that [applyProps] writes onto the default camera; the bag is
    represented by the change it makes. *)
Inductive CameraProp :=
| CameraInstance (c : THREE.Camera)
| CameraOptions (applyProps : THREE.Camera -> THREE.Camera).

Record MockStoreProps := mkProps
  { p_size : option Size.t;
    p_vr : option bool;
    p_noninteractive : option bool;
    p_linear : option bool;
    p_orthographic : option bool;
    p_frameloop : option bool;
    p_updateCamera : option bool;
    p_pixelRatio : option PixelRatio;
    p_performance : Performance.override;
    p_camera : option CameraProp }.

Definition noProps : MockStoreProps :=
  mkProps None None None None None None None None Performance.noOverride None.

(** Lines 85-97: the camera the store starts with. *)
Definition defaultCamera (props : MockStoreProps) : THREE.Camera :=
  match p_camera props with
  | Some (CameraInstance c) => c
  | other =>
      let position := THREE.vec3 0 0 5 in
      let fresh :=
        if JS.default false (p_orthographic props)
        then THREE.OrthographicCamera position 100
        else THREE.PerspectiveCamera position 75 1 in
      match other with
      | Some (CameraOptions applyProps) => applyProps fresh
      | _ => fresh
      end
  end.

(** Lines 138-232: the state the creator function returns. *)
Definition initialState (devicePixelRatio : float) (props : MockStoreProps) : RootState :=
  let initialPixelRatio :=
    clampPixelRatio devicePixelRatio (JS.default (Scalar 1) (p_pixelRatio props)) in
  {| camera := defaultCamera props;
     vr := JS.default false (p_vr props);
     noninteractive := JS.default false (p_noninteractive props);
     linear := JS.default false (p_linear props);
     frameloop := JS.default true (p_frameloop props);
     updateCamera := JS.default true (p_updateCamera props);
     performance := Performance.initial (p_performance props);
     size := Size.mk 0 0;
     viewport :=
       {| Viewport.initialPixelRatio := initialPixelRatio;
          Viewport.pixelRatio := initialPixelRatio;
          Viewport.width := 0; Viewport.height := 0; Viewport.aspect := 0;
          Viewport.distance := 0; Viewport.factor := 0 |} |}.

Definition emptyStore (devicePixelRatio : float) (props : MockStoreProps) : Store :=
  {| state := initialState devicePixelRatio props;
     internal := Internal.initial;
     closureCamera := defaultCamera props;
     performanceTimeout := None;
     host := Host.boot devicePixelRatio;
     published := [] |}.

Section Construction.
Variable Math_tan : float -> float.

(** [createMockStore]: the initial state, then [setSize] when the props
    carry a size. *)
Definition createMockStore (devicePixelRatio : float) (props : MockStoreProps) : Store :=
  let s := emptyStore devicePixelRatio props in
  match p_size props with
  | Some sz => setSize Math_tan (Size.width sz) (Size.height sz) s
  | None => s
  end.
End Construction.

(** ** Performance governor *)

(** [setPerformanceCurrent] *)
Definition setPerformanceCurrent (current : float) (s : Store) : Store :=
  set (fun st =>
         {| camera := camera st;
            vr := vr st; noninteractive := noninteractive st; linear := linear st;
            frameloop := frameloop st; updateCamera := updateCamera st;
            performance := Performance.withCurrent (performance st) current;
            size := size st;
            viewport := viewport st |}) s.

Definition withHost (h : Host.t) (s : Store) : Store :=
  {| state := state s; internal := internal s; closureCamera := closureCamera s;
     performanceTimeout := performanceTimeout s; host := h; published := published s |}.

Definition withTimeout (t : option nat) (s : Store) : Store :=
  {| state := state s; internal := internal s; closureCamera := closureCamera s;
     performanceTimeout := t; host := host s; published := published s |}.

(** The callback handed to [setTimeout]; the host logs the time it runs. *)
Definition recover (at_ : N) (s : Store) : Store :=
  let s := setPerformanceCurrent (Performance.max (performance (state s))) s in
  let h := host s in
  withHost {| Host.devicePixelRatio := Host.devicePixelRatio h;
              Host.now := h.(Host.now);
              Host.pending := Host.pending h;
              Host.nextId := Host.nextId h;
              Host.fired := Host.fired h ++ [at_] |} s.

Section Governor.

(** How the host turns the [delay] argument of [setTimeout] into whole
    milliseconds. *)
Variable timerDelay : float -> N.

(** [performance.regress] *)
Definition regress (s : Store) : Store :=
  let s := withHost (Host.clearTimeout (performanceTimeout s) (host s)) s in
  let s := setPerformanceCurrent (Performance.min (performance (state s))) s in
  let '(handle, h) :=
    Host.setTimeout (timerDelay (Performance.debounce (performance (state s)))) (host s) in
  withTimeout (Some handle) (withHost h s).

End Governor.

(** Time passes: the host runs the callbacks of the timers that have become
    due, earliest first, and the clock ends [dt] ms later. *)
Definition compareDue (a b : Host.Timer) : Z :=
  (Z.of_N (Host.due a) - Z.of_N (Host.due b))%Z.

Definition isDue (t : N) (tm : Host.Timer) : bool := (Host.due tm <=? t)%N.

Definition elapse (dt : N) (s : Store) : Store :=
  let h := host s in
  let t := (Host.now h + dt)%N in
  let ready := JS.Array_sort compareDue (filter (isDue t) (Host.pending h)) in
  let h' := {| Host.devicePixelRatio := Host.devicePixelRatio h;
               Host.now := t;
               Host.pending := filter (fun tm => negb (isDue t tm)) (Host.pending h);
               Host.nextId := Host.nextId h;
               Host.fired := Host.fired h |} in
  fold_left (fun s tm => recover (Host.due tm) s) ready (withHost h' s).

(** ** Frame subscriber registry *)

(** The comparator of line 222. *)
Definition byPriority (a b : Subscription) : Z := (priority a - priority b)%Z.

(** The closure [subscribe] returns: it keeps [ref] and [priority] (and the
    [internal] object, of which there is one). *)
Record Unsubscribe := { u_ref : Ref; u_priority : Z }.

Definition subscribe (r : Ref) (p : Z) (i : Internal.t) : Internal.t * Unsubscribe :=
  let manual := if JS.truthy p then (Internal.manual i + 1)%Z else Internal.manual i in
  let pushed := Internal.subscribers i ++ [ {| ref := r; priority := p |} ] in
  ({| Internal.manual := manual;
      Internal.subscribers := JS.Array_sort byPriority pushed |},
   {| u_ref := r; u_priority := p |}).

(** Calling the closure.  The guard [internal?.subscribers] holds whenever
    the object exists and carries an array, empty or not. *)
Definition unsubscribe (u : Unsubscribe) (i : Internal.t) : Internal.t :=
  let manual := if JS.truthy (u_priority u) then (Internal.manual i - 1)%Z else Internal.manual i in
  {| Internal.manual := manual;
     Internal.subscribers :=
       filter (fun s => negb (Nat.eqb (ref s) (u_ref u))) (Internal.subscribers i) |}.

(** A registry in use: the [internal] object and the closures handed out so
    far, in the order they were returned. *)
Record Registry := { reg_internal : Internal.t; issued : list Unsubscribe }.

Definition freshRegistry : Registry :=
  {| reg_internal := Internal.initial; issued := [] |}.

Inductive RegistryOp :=
| Subscribe (r : Ref) (p : Z)
| Invoke (k : nat).

(** [Invoke k] calls the [k]-th closure handed out; there is nothing to call
    when fewer have been. *)
Definition registryStep (w : Registry) (o : RegistryOp) : Registry :=
  match o with
  | Subscribe r p =>
      let '(i, u) := subscribe r p (reg_internal w) in
      {| reg_internal := i; issued := issued w ++ [u] |}
  | Invoke k =>
      match nth_error (issued w) k with
      | Some u => {| reg_internal := unsubscribe u (reg_internal w); issued := issued w |}
      | None => w
      end
  end.

Definition registryRun (ops : list RegistryOp) (w : Registry) : Registry :=
  fold_left registryStep ops w.

Definition manualCount (w : Registry) : Z := Internal.manual (reg_internal w).
Definition subscriberList (w : Registry) : list Subscription :=
  Internal.subscribers (reg_internal w).
(** Registration order: the subscriptions still registered, oldest first.
    This is the yardstick the ordering claim is measured against; the store
    itself keeps no such list. *)
Definition logStep (w : Registry) (log : list Subscription) (o : RegistryOp)
  : list Subscription :=
  match o with
  | Subscribe r p => log ++ [ {| ref := r; priority := p |} ]
  | Invoke k =>
      match nth_error (issued w) k with
      | Some u => filter (fun s => negb (Nat.eqb (ref s) (u_ref u))) log
      | None => log
      end
  end.

Definition trackedStep (wl : Registry * list Subscription) (o : RegistryOp)
  : Registry * list Subscription :=
  (registryStep (fst wl) o, logStep (fst wl) (snd wl) o).

Definition registrationOrder (ops : list RegistryOp) : list Subscription :=
  snd (fold_left trackedStep ops (freshRegistry, [])).

Definition hasPriority (p : Z) (s : Subscription) : bool := (priority s =? p)%Z.

Definition lowerFirst (a b : Subscription) : Prop := (priority a <= priority b)%Z.

Definition countManual (l : list Subscription) : nat :=
  length (filter (fun s => JS.truthy (priority s)) l).

Definition subscribeOp (s : Ref * Z) : RegistryOp := Subscribe (fst s) (snd s).

(** The ordering invariant, stated on a registry run next to its
    registration order. *)
Definition orderInvariant (wl : Registry * list Subscription) : Prop :=
  StronglySorted lowerFirst (subscriberList (fst wl))
  /\ forall p, filter (hasPriority p) (subscriberList (fst wl))
               = filter (hasPriority p) (snd wl).

(** The test of line 227, [s.ref !== ref]. *)
Definition keepOthers (r : Ref) (s : Subscription) : bool := negb (Nat.eqb (ref s) r).

(** The counter invariant under pairwise distinct refs: one entry per ref,
    every entry with a priority, the counter equal to the number of entries. *)
Definition asSubscription (s : Ref * Z) : Subscription :=
  {| ref := fst s; priority := snd s |}.

Definition asClosure (s : Ref * Z) : Unsubscribe :=
  {| u_ref := fst s; u_priority := snd s |}.

Definition tidy (w : Registry) : Prop :=
  NoDup (map ref (subscriberList w))
  /\ Forall (fun s => priority s <> 0%Z) (subscriberList w)
  /\ manualCount w = Z.of_nat (length (subscriberList w))
  /\ NoDup (map u_ref (issued w)).

(** The [k]-th closure belongs to a subscription that is still registered. *)
Definition live (w : Registry) (k : nat) : Prop :=
  exists u, nth_error (issued w) k = Some u
            /\ In (u_ref u) (map ref (subscriberList w))
            /\ u_priority u <> 0%Z.

(** ** Store histories *)

Inductive StoreOp :=
| SetSize (width height : float)
| SetCamera (c : THREE.Camera)
| SetPixelRatio (pixelRatio : PixelRatio)
| Regress
| Elapse (dt : N).

Section History.
Variable Math_tan : float -> float.
Variable timerDelay : float -> N.

Definition storeStep (s : Store) (o : StoreOp) : Store :=
  match o with
  | SetSize w h => setSize Math_tan w h s
  | SetCamera c => setCamera c s
  | SetPixelRatio r => setPixelRatio r s
  | Regress => regress timerDelay s
  | Elapse dt => elapse dt s
  end.

Definition storeRun (ops : list StoreOp) (s : Store) : Store :=
  fold_left storeStep ops s.
End History.

(** At most one recovery timer is pending, and it is the one
    [performanceTimeout] names. *)
Definition oneTimer (s : Store) : Prop :=
  Host.pending (host s) = []
  \/ exists tm, Host.pending (host s) = [tm]
                /\ performanceTimeout s = Some (Host.id tm).

(** [current] is the constructed value or one of the two bounds, and the
    bounds and the debounce are the constructed ones. *)
Definition governed (p0 p : Performance.t) : Prop :=
  Performance.min p = Performance.min p0
  /\ Performance.max p = Performance.max p0
  /\ Performance.debounce p = Performance.debounce p0
  /\ (Performance.current p = Performance.current p0
      \/ Performance.current p = Performance.min p0
      \/ Performance.current p = Performance.max p0).

(** [|a - b|] as [Vector3.sub] followed by [Vector3.length]. *)
Definition euclidean (a b : THREE.Vector3) : float :=
  let dx := (THREE.x a - THREE.x b)%float in
  let dy := (THREE.y a - THREE.y b)%float in
  let dz := (THREE.z a - THREE.z b)%float in
  sqrt (dx * dx + dy * dy + dz * dz)%float.

(** [min <= current <= max], with JavaScript's comparison. *)
Definition withinBounds (p : Performance.t) : bool :=
  (Performance.min p <=? Performance.current p)%float
  && (Performance.current p <=? Performance.max p)%float.

(** ** The viewport as stored and as recomputed *)

(** The five numbers of the viewport slice that [getCurrentViewport]
    produces. *)
Definition geometryOf (v : Viewport.t) : Geometry.t :=
  {| Geometry.width := Viewport.width v;
     Geometry.height := Viewport.height v;
     Geometry.factor := Viewport.factor v;
     Geometry.distance := Viewport.distance v;
     Geometry.aspect := Viewport.aspect v |}.

(** The zeros of lines 176-180. *)
Definition zeroGeometry : Geometry.t := Geometry.mk 0 0 0 0 0.

Section DefaultArguments.
Variable Math_tan : float -> float.

(** [state.viewport.getCurrentViewport()] with no argument: the defaults of
    lines 117-119 are [get().camera], [defaultTarget] and [get().size]. *)
Definition currentViewport (s : Store) : Geometry.t :=
  getCurrentViewport Math_tan (camera (state s)) defaultTarget (size (state s)).
End DefaultArguments.

Definition isSetCamera (o : StoreOp) : bool :=
  match o with SetCamera _ => true | _ => false end.

Definition isRegress (o : StoreOp) : bool :=
  match o with Regress => true | _ => false end.

(** The ratio the latest [setPixelRatio] of a history asks for, [r] when
    there is none. *)
Definition lastPixelRatio (devicePixelRatio r : float) (ops : list StoreOp) : float :=
  fold_left
    (fun r o =>
       match o with
       | SetPixelRatio pixelRatio => clampPixelRatio devicePixelRatio pixelRatio
       | _ => r
       end) ops r.

(** The stored viewport is the untouched initial one, or the one computed
    from the construction camera at the stored size. *)
Definition viewportTracksSize (Math_tan : float -> float) (s : Store) : Prop :=
  (size (state s) = Size.mk 0 0 /\ geometryOf (viewport (state s)) = zeroGeometry)
  \/ geometryOf (viewport (state s))
     = getCurrentViewport Math_tan (closureCamera s) defaultTarget (size (state s)).

(** ** Where a new subscriber lands, and what the counter counts *)

Definition notAbove (p : Z) (s : Subscription) : bool := (priority s <=? p)%Z.

Definition above (p : Z) (s : Subscription) : bool := negb (priority s <=? p)%Z.

(** Subscriptions made with a truthy priority. *)
Definition countPriority (subs : list (Ref * Z)) : nat :=
  length (filter (fun s => JS.truthy (snd s)) subs).

(** Calls, among [ks], of a closure that exists and whose subscription had a
    truthy priority; a closure called twice counts twice. *)
Definition priorityCalls (subs : list (Ref * Z)) (ks : list nat) : nat :=
  length
    (filter
       (fun k => match nth_error subs k with
                 | Some s => JS.truthy (snd s)
                 | None => false
                 end) ks).

(** ** The governor as a two-state machine *)


Definition countRegress (ops : list StoreOp) : nat := length (filter isRegress ops).

(** A burst of [regress] calls: the first, then one more after each gap of
    [ds], then a wait of [e]. *)
Definition regressBurst (ds : list N) (e : N) : list StoreOp :=
  Regress :: flat_map (fun d => [Elapse d; Regress]) ds ++ [Elapse e].

Definition sumN (ds : list N) : N := fold_right N.add 0%N ds.

(** Just after a [regress]: one timer, due a debounce from now, with the
    log of recoveries [f] and the bounds and debounce of [p]. *)
Definition armed (timerDelay : float -> N) (f : list N) (p : Performance.t) (s : Store)
  : Prop :=
  (exists n, Host.pending (host s)
             = [ {| Host.id := n;
                    Host.due := (Host.now (host s)
                                 + timerDelay (Performance.debounce p))%N |} ]
             /\ performanceTimeout s = Some n)
  /\ Host.fired (host s) = f
  /\ Performance.debounce (performance (state s)) = Performance.debounce p
  /\ Performance.max (performance (state s)) = Performance.max p.

(** ** The resize listener *)

(** The projection properties of a camera object that the listener of
    lines 236-257 writes: the frustum edges of an orthographic camera, the
    aspect of a perspective one. *)
Module Projection.
Record t := mk
  { left : float; right : float; top : float; bottom : float; aspect : float }.
End Projection.

(** The listener's body, run on the state it reads with [getState()]; the
    two matrix updates that follow the writes are three.js internals. *)
Definition resizeListener (st : RootState) (pr : Projection.t) : Projection.t :=
  if updateCamera st then
    if isOrthographicCamera (camera st) then
      {| Projection.left := (Size.width (size st) / (-2))%float;
         Projection.right := (Size.width (size st) / 2)%float;
         Projection.top := (Size.height (size st) / 2)%float;
         Projection.bottom := (Size.height (size st) / (-2))%float;
         Projection.aspect := Projection.aspect pr |}
    else
      {| Projection.left := Projection.left pr;
         Projection.right := Projection.right pr;
         Projection.top := Projection.top pr;
         Projection.bottom := Projection.bottom pr;
         Projection.aspect := (Size.width (size st) / Size.height (size st))%float |}
  else pr.

(** * Properties *)

Unset Implicit Arguments.

(** ** The stable sort *)

Section SortFacts.
Variable A : Type.
Variable compareFn : A -> A -> Z.

Lemma insert_perm (a : A) (l : list A) :
  Permutation (JS.insert compareFn a l) (a :: l).
Proof.
  induction l as [|b l IH]; simpl.
  - apply Permutation_refl.
  - destruct (compareFn a b <=? 0)%Z.
    + apply Permutation_refl.
    + eapply perm_trans; [apply perm_skip, IH | apply perm_swap].
Qed.

Lemma Array_sort_perm (l : list A) :
  Permutation (JS.Array_sort compareFn l) l.
Proof.
  induction l as [|a l IH]; simpl.
  - constructor.
  - eapply perm_trans; [apply insert_perm | now apply perm_skip].
Qed.
End SortFacts.

Lemma insert_byPriority_sorted (a : Subscription) (l : list Subscription) :
  StronglySorted lowerFirst l ->
  StronglySorted lowerFirst (JS.insert byPriority a l).
Proof.
  induction 1 as [|b l Hs IH Hb]; simpl.
  - repeat constructor.
  - unfold byPriority at 1.
    destruct (Z.leb_spec (priority a - priority b) 0) as [Hle|Hgt].
    + constructor; [now constructor|].
      constructor; [unfold lowerFirst; lia|].
      eapply Forall_impl; [|exact Hb].
      unfold lowerFirst; intros c Hc; lia.
    + constructor; [exact IH|].
      eapply Permutation_Forall; [apply Permutation_sym, insert_perm|].
      constructor; [unfold lowerFirst; lia|exact Hb].
Qed.

Lemma Array_sort_byPriority_sorted (l : list Subscription) :
  StronglySorted lowerFirst (JS.Array_sort byPriority l).
Proof.
  induction l as [|a l IH]; simpl.
  - constructor.
  - now apply insert_byPriority_sorted.
Qed.

(** Stability: among the entries of one priority, sorting changes nothing. *)
Lemma insert_byPriority_stable (p : Z) (a : Subscription) (l : list Subscription) :
  filter (hasPriority p) (JS.insert byPriority a l) = filter (hasPriority p) (a :: l).
Proof.
  induction l as [|b l IH]; simpl; [reflexivity|].
  unfold byPriority at 1.
  destruct (Z.leb_spec (priority a - priority b) 0) as [Hle|Hgt]; [reflexivity|].
  simpl. rewrite IH. simpl. unfold hasPriority.
  destruct (Z.eqb_spec (priority a) p), (Z.eqb_spec (priority b) p);
    try reflexivity; lia.
Qed.

Lemma Array_sort_byPriority_stable (p : Z) (l : list Subscription) :
  filter (hasPriority p) (JS.Array_sort byPriority l) = filter (hasPriority p) l.
Proof.
  induction l as [|a l IH]; simpl; [reflexivity|].
  rewrite insert_byPriority_stable. simpl. now rewrite IH.
Qed.

Lemma StronglySorted_filter (A : Type) (R : A -> A -> Prop) (f : A -> bool) (l : list A) :
  StronglySorted R l -> StronglySorted R (filter f l).
Proof.
  induction 1 as [|a l Hs IH Ha]; simpl; [constructor|].
  destruct (f a); [|exact IH].
  constructor; [exact IH|].
  apply Forall_forall. intros b Hb. apply filter_In in Hb.
  rewrite Forall_forall in Ha. now apply Ha.
Qed.

Lemma filter_comm (A : Type) (f g : A -> bool) (l : list A) :
  filter f (filter g l) = filter g (filter f l).
Proof.
  induction l as [|a l IH]; simpl; [reflexivity|].
  destruct (f a) eqn:Hf, (g a) eqn:Hg; simpl; rewrite ?Hf, ?Hg, IH; reflexivity.
Qed.

(** ** Frame subscriber registry *)

Lemma orderInvariant_step (wl : Registry * list Subscription) (o : RegistryOp) :
  orderInvariant wl -> orderInvariant (trackedStep wl o).
Proof.
  destruct wl as [w log]. intros [Hs Hf]. simpl in *.
  destruct o as [r p|k]; unfold trackedStep, orderInvariant, subscriberList in *; simpl.
  - split.
    + apply Array_sort_byPriority_sorted.
    + intros q. rewrite Array_sort_byPriority_stable, !filter_app, Hf. reflexivity.
  - destruct (nth_error (issued w) k) as [u|]; simpl.
    + split.
      * now apply StronglySorted_filter.
      * intros q. rewrite filter_comm, Hf, filter_comm. reflexivity.
    + now split.
Qed.

Lemma orderInvariant_run (ops : list RegistryOp) (wl : Registry * list Subscription) :
  orderInvariant wl -> orderInvariant (fold_left trackedStep ops wl).
Proof.
  revert wl. induction ops as [|o ops IH]; intros wl H; simpl; [exact H|].
  apply IH, orderInvariant_step, H.
Qed.

Lemma tracked_fst (ops : list RegistryOp) (wl : Registry * list Subscription) :
  fst (fold_left trackedStep ops wl) = registryRun ops (fst wl).
Proof.
  revert wl. induction ops as [|o ops IH]; intros wl; simpl; [reflexivity|].
  now rewrite IH.
Qed.

(** C5.  Whatever subscriptions and unsubscriptions have happened, the
    subscriber list is in ascending priority order, and for each priority
    its entries are exactly the still-registered subscriptions of that
    priority in registration order; priorities 5, 1, 3 come out as 1, 3, 5. *)
Theorem subscribers_sorted_by_priority_stable :
  forall ops : list RegistryOp,
    let w := registryRun ops freshRegistry in
    StronglySorted lowerFirst (subscriberList w)
    /\ (forall p, filter (hasPriority p) (subscriberList w)
                  = filter (hasPriority p) (registrationOrder ops))
    /\ (forall a b c : Ref,
          map priority
            (subscriberList
               (registryRun [Subscribe a 5; Subscribe b 1; Subscribe c 3] freshRegistry))
          = [1; 3; 5]%Z).
Proof.
  intros ops w.
  assert (H : orderInvariant (fold_left trackedStep ops (freshRegistry, []))).
  { apply orderInvariant_run. split; simpl; [constructor|reflexivity]. }
  destruct H as [Hs Hf]. rewrite tracked_fst in Hs, Hf. simpl in Hs, Hf.
  split; [exact Hs|]. split; [exact Hf|]. intros a b c. reflexivity.
Qed.

(** C2 fails as stated: a subscription of priority 1 whose closure is called
    twice leaves the counter at 0 after the first call and at -1 after the
    second. *)
Lemma second_unsubscribe_call_decrements_again :
  let once := registryRun [Subscribe 0 1; Invoke 0] freshRegistry in
  let twice := registryRun [Subscribe 0 1; Invoke 0; Invoke 0] freshRegistry in
  manualCount once = 0%Z /\ manualCount twice = (-1)%Z
  /\ manualCount twice <> manualCount once.
Proof. repeat split. discriminate. Qed.

Lemma filter_idempotent (A : Type) (f : A -> bool) (l : list A) :
  filter f (filter f l) = filter f l.
Proof.
  induction l as [|a l IH]; simpl; [reflexivity|].
  destruct (f a) eqn:Hf; simpl; rewrite ?Hf, IH; reflexivity.
Qed.

(** C2, amended.  Calling the closure of a subscription a second time leaves
    the subscriber list as the first call left it; the counter is left alone
    when the subscription's priority is zero and goes down by one more
    otherwise. *)
Theorem second_unsubscribe_call :
  forall (r : Ref) (p : Z) (before i : Internal.t),
    let u := snd (subscribe r p before) in
    let once := unsubscribe u i in
    let twice := unsubscribe u once in
    Internal.subscribers twice = Internal.subscribers once
    /\ Internal.manual twice
       = if (p =? 0)%Z then Internal.manual once else (Internal.manual once - 1)%Z.
Proof.
  intros r p before i. simpl. split.
  - apply filter_idempotent.
  - unfold JS.truthy. destruct (p =? 0)%Z; reflexivity.
Qed.



(** C6 fails as stated: the same ref subscribed with priorities 1 and 2,
    then the first closure called once, leaves the counter at 1 and the
    subscriber list empty. *)
Lemma manual_count_off_with_shared_ref :
  let w := registryRun [Subscribe 0 1; Subscribe 0 2; Invoke 0] freshRegistry in
  manualCount w = 1%Z /\ subscriberList w = []
  /\ countManual (subscriberList w) = 0%nat.
Proof. repeat split. Qed.

(** *** The manual counter *)

Lemma keepOthers_all (r : Ref) (l : list Subscription) :
  ~ In r (map ref l) -> filter (keepOthers r) l = l.
Proof.
  induction l as [|a l IH]; simpl; intros H; [reflexivity|].
  unfold keepOthers at 1.
  destruct (Nat.eqb_spec (ref a) r) as [E|E]; simpl.
  - exfalso. apply H. now left.
  - f_equal. apply IH. intros Hin. apply H. now right.
Qed.

Lemma keepOthers_length (r : Ref) (l : list Subscription) :
  NoDup (map ref l) -> In r (map ref l) ->
  S (length (filter (keepOthers r) l)) = length l.
Proof.
  induction l as [|a l IH]; simpl; intros Hnd Hin; [contradiction|].
  inversion Hnd as [|x xs Hnot Hnd']; subst.
  unfold keepOthers at 1.
  destruct (Nat.eqb_spec (ref a) r) as [E|E]; simpl.
  - subst r. now rewrite keepOthers_all.
  - f_equal. apply IH; [exact Hnd'|]. destruct Hin as [Hin|Hin]; [contradiction|exact Hin].
Qed.

Lemma keepOthers_In (r x : Ref) (l : list Subscription) :
  In x (map ref l) -> x <> r -> In x (map ref (filter (keepOthers r) l)).
Proof.
  intros Hin Hne. apply in_map_iff in Hin. destruct Hin as [s [Hs Hin]].
  apply in_map_iff. exists s. split; [exact Hs|].
  apply filter_In. split; [exact Hin|].
  unfold keepOthers. apply negb_true_iff, Nat.eqb_neq. congruence.
Qed.

Lemma NoDup_map_filter (A B : Type) (f : A -> B) (q : A -> bool) (l : list A) :
  NoDup (map f l) -> NoDup (map f (filter q l)).
Proof.
  induction l as [|a l IH]; simpl; intros H; [constructor|].
  inversion H as [|x xs Hnot Hnd]; subst.
  destruct (q a); simpl; [|now apply IH].
  constructor; [|now apply IH].
  intros Hin. apply Hnot. apply in_map_iff in Hin. destruct Hin as [b [Hb Hin]].
  apply in_map_iff. exists b. split; [exact Hb|]. apply filter_In in Hin. tauto.
Qed.

Lemma countManual_all (l : list Subscription) :
  Forall (fun s => priority s <> 0%Z) l -> countManual l = length l.
Proof.
  unfold countManual. induction 1 as [|a l Ha Hl IH]; simpl; [reflexivity|].
  unfold JS.truthy at 1. destruct (Z.eqb_spec (priority a) 0); [contradiction|].
  simpl. now rewrite IH.
Qed.

Lemma registryRun_app (a b : list RegistryOp) (w : Registry) :
  registryRun (a ++ b) w = registryRun b (registryRun a w).
Proof. apply fold_left_app. Qed.

Lemma subscribe_all (subs : list (Ref * Z)) :
  forall w : Registry,
    let w' := registryRun (map subscribeOp subs) w in
    issued w' = issued w ++ map asClosure subs
    /\ Permutation (subscriberList w') (subscriberList w ++ map asSubscription subs)
    /\ (Forall (fun s => snd s <> 0%Z) subs ->
        manualCount w' = (manualCount w + Z.of_nat (length subs))%Z).
Proof.
  induction subs as [|[r p] subs IH]; intros w; simpl.
  - rewrite !app_nil_r. repeat split; [apply Permutation_refl|intros _; lia].
  - specialize (IH (registryStep w (subscribeOp (r, p)))).
    destruct IH as [Hi [Hp Hm]].
    unfold registryRun in *. simpl in *.
    split; [|split].
    + rewrite Hi. now rewrite <- app_assoc.
    + eapply perm_trans; [exact Hp|].
      unfold subscriberList at 1. simpl.
      change (subscriberList w ++ asSubscription (r, p) :: map asSubscription subs)
        with (subscriberList w ++ [asSubscription (r, p)] ++ map asSubscription subs).
      rewrite app_assoc.
      apply Permutation_app_tail, Array_sort_perm.
    + intros Hall. inversion Hall as [|x xs Hx Hxs]; subst. simpl in Hx.
      rewrite (Hm Hxs). unfold manualCount at 1. simpl.
      unfold JS.truthy. destruct (Z.eqb_spec p 0); [contradiction|].
      simpl. unfold manualCount. lia.
Qed.

Lemma invoke_all (ks : list nat) :
  forall w : Registry,
    tidy w -> NoDup ks -> Forall (live w) ks ->
    let w' := registryRun (map Invoke ks) w in
    tidy w' /\ (length (subscriberList w') + length ks = length (subscriberList w))%nat.
Proof.
  induction ks as [|k ks IH]; intros w Ht Hnd Hlive.
  - simpl. split; [exact Ht|lia].
  - inversion Hnd as [|x xs Hk Hnd']; subst.
    inversion Hlive as [|x xs Hlk Hlks]; subst.
    destruct Hlk as [u [Hu [Hin Hp]]].
    destruct Ht as [Hrefs [Hprio [Hman Hiss]]].
    set (w1 := registryStep w (Invoke k)).
    assert (Hw1 : w1 = {| reg_internal := unsubscribe u (reg_internal w); issued := issued w |}).
    { unfold w1. simpl. now rewrite Hu. }
    assert (Hlen : S (length (subscriberList w1)) = length (subscriberList w)).
    { rewrite Hw1. unfold subscriberList. simpl.
      apply (keepOthers_length (u_ref u)); assumption. }
    assert (Ht1 : tidy w1).
    { rewrite Hw1. unfold tidy, subscriberList, manualCount in *. simpl.
      repeat split.
      - now apply NoDup_map_filter.
      - apply Forall_forall. intros s Hs. apply filter_In in Hs.
        rewrite Forall_forall in Hprio. now apply Hprio.
      - rewrite Hw1 in Hlen. unfold subscriberList in Hlen. simpl in Hlen.
        unfold JS.truthy. destruct (Z.eqb_spec (u_priority u) 0); [contradiction|].
        simpl. lia.
      - exact Hiss. }
    assert (Hl1 : Forall (live w1) ks).
    { apply Forall_forall. intros k' Hk'.
      rewrite Forall_forall in Hlks. destruct (Hlks k' Hk') as [u' [Hu' [Hin' Hp']]].
      exists u'. rewrite Hw1. unfold subscriberList. simpl.
      split; [exact Hu'|]. split; [|exact Hp'].
      apply (keepOthers_In (u_ref u)); [exact Hin'|].
      intros E. apply Hk.
      assert (Hkk : k' = k).
      { apply (proj1 (NoDup_nth_error (map u_ref (issued w))) Hiss).
        - rewrite length_map. apply nth_error_Some. now rewrite Hu'.
        - rewrite !nth_error_map, Hu, Hu'. simpl. now rewrite E. }
      now subst k'. }
    destruct (IH w1 Ht1 Hnd' Hl1) as [Ht' Hlen'].
    change (registryRun (map Invoke (k :: ks)) w) with (registryRun (map Invoke ks) w1).
    split; [exact Ht'|].
    change (length (k :: ks)) with (S (length ks)). lia.
Qed.

(** C6, amended.  When the callback refs of the N subscriptions are pairwise
    distinct (all priorities nonzero) and M different closures are then each
    called once, the counter equals the number of nonzero-priority
    subscribers still in the list, which is N - M. *)
Theorem manual_count_matches_subscribers :
  forall (subs : list (Ref * Z)) (ks : list nat),
    Forall (fun s => snd s <> 0%Z) subs ->
    NoDup (map fst subs) ->
    NoDup ks ->
    Forall (fun k => (k < length subs)%nat) ks ->
    let w := registryRun (map subscribeOp subs ++ map Invoke ks) freshRegistry in
    manualCount w = Z.of_nat (countManual (subscriberList w))
    /\ manualCount w = (Z.of_nat (length subs) - Z.of_nat (length ks))%Z.
Proof.
  intros subs ks Hprio Hrefs Hks Hlt w.
  destruct (subscribe_all subs freshRegistry) as [Hi [Hp Hm]].
  set (w0 := registryRun (map subscribeOp subs) freshRegistry) in *.
  simpl in Hi, Hp. specialize (Hm Hprio).
  change (manualCount freshRegistry) with 0%Z in Hm.
  assert (Hlen0 : length (subscriberList w0) = length subs).
  { rewrite (Permutation_length Hp). apply length_map. }
  assert (Hmaprefs : map ref (map asSubscription subs) = map fst subs).
  { rewrite map_map. reflexivity. }
  assert (Ht0 : tidy w0).
  { repeat split.
    - eapply Permutation_NoDup;
        [apply Permutation_sym, Permutation_map, Hp|now rewrite Hmaprefs].
    - eapply Permutation_Forall; [apply Permutation_sym, Hp|].
      apply Forall_forall. intros s Hs. apply in_map_iff in Hs.
      destruct Hs as [x [Hx Hin]]. subst s. simpl.
      rewrite Forall_forall in Hprio. now apply Hprio.
    - rewrite Hm, Hlen0. lia.
    - rewrite Hi, map_map. exact Hrefs. }
  assert (Hl0 : Forall (live w0) ks).
  { apply Forall_forall. intros k Hk. rewrite Forall_forall in Hlt.
    specialize (Hlt k Hk).
    destruct (nth_error subs k) as [s|] eqn:Hs;
      [|apply nth_error_None in Hs; lia].
    exists (asClosure s). rewrite Hi, nth_error_map, Hs. split; [reflexivity|].
    apply nth_error_In in Hs. split.
    - eapply Permutation_in; [apply Permutation_sym, Permutation_map, Hp|].
      rewrite Hmaprefs. change (u_ref (asClosure s)) with (fst s). now apply in_map.
    - simpl. rewrite Forall_forall in Hprio. now apply Hprio. }
  destruct (invoke_all ks w0 Ht0 Hks Hl0) as [[_ [Hp' [Hm' _]]] Hlen'].
  unfold w. rewrite registryRun_app. fold w0.
  rewrite countManual_all by exact Hp'.
  split; [exact Hm'|]. rewrite Hm'. lia.
Qed.

Lemma manual_count_matches_subscribers_witness :
  let subs := [(0%nat, 5%Z); (1%nat, 1%Z); (2%nat, 3%Z)] in
  let ks := [2%nat; 0%nat] in
  let w := registryRun (map subscribeOp subs ++ map Invoke ks) freshRegistry in
  manualCount w = Z.of_nat (countManual (subscriberList w))
  /\ manualCount w = (Z.of_nat (length subs) - Z.of_nat (length ks))%Z.
Proof.
  apply (manual_count_matches_subscribers
           [(0%nat, 5%Z); (1%nat, 1%Z); (2%nat, 3%Z)] [2%nat; 0%nat]).
  - repeat constructor; simpl; discriminate.
  - simpl. repeat constructor; simpl; intuition discriminate.
  - repeat constructor; simpl; intuition discriminate.
  - simpl. repeat constructor.
Defined.

(** ** Viewport calculator *)

(** C4.  The viewport computation: aspect and distance for either camera,
    the zoom-scaled size with factor 1 for an orthographic camera, the
    field-of-view formulas for a perspective camera; zoom 2 at 200 x 100
    gives 100 x 50 with factor 1. *)
Theorem getCurrentViewport_formulas :
  forall (Math_tan : float -> float)
         (c : THREE.Camera) (target : THREE.Vector3) (sz : Size.t),
    let v := getCurrentViewport Math_tan c target sz in
    Geometry.aspect v = (Size.width sz / Size.height sz)%float
    /\ Geometry.distance v = euclidean (THREE.getWorldPosition c) target
    /\ (if isOrthographicCamera c then
          Geometry.width v = (Size.width sz / THREE.zoom c)%float
          /\ Geometry.height v = (Size.height sz / THREE.zoom c)%float
          /\ Geometry.factor v = 1%float
        else
          let fovInRadians := (THREE.fov c * JS.Math_PI / 180)%float in
          Geometry.height v
          = (2 * Math_tan (fovInRadians / 2) * Geometry.distance v)%float
          /\ Geometry.width v = (Geometry.height v * Geometry.aspect v)%float
          /\ Geometry.factor v = (Size.width sz / Geometry.width v)%float)
    /\ (forall position : THREE.Vector3,
          let o := getCurrentViewport Math_tan
                     (THREE.OrthographicCamera position 2) target (Size.mk 200 100) in
          Geometry.width o = 100%float
          /\ Geometry.height o = 50%float
          /\ Geometry.factor o = 1%float).
Proof.
  intros Math_tan c target sz v.
  split; [destruct c; reflexivity|].
  split; [destruct c; reflexivity|].
  split; [destruct c; simpl; repeat split; reflexivity|].
  intros position. simpl. repeat split; reflexivity.
Qed.

(** ** Setters *)

Lemma host_setSize (Math_tan : float -> float) (w h : float) (s : Store) :
  host (setSize Math_tan w h s) = host s.
Proof. reflexivity. Qed.

Lemma host_createMockStore (Math_tan : float -> float) (dpr : float) (props : MockStoreProps) :
  host (createMockStore Math_tan dpr props) = Host.boot dpr.
Proof. unfold createMockStore. destruct (p_size props); reflexivity. Qed.

(** C3.  [setPixelRatio] stores max(min(a, devicePixelRatio), b) for a pair
    and the number itself for a scalar, and changes nothing else, in the
    state or around it; the pair [1, 2] under a device pixel ratio of 3
    gives 2. *)
Theorem setPixelRatio_clamps_only_pixelRatio :
  forall (pixelRatio : PixelRatio) (s : Store),
    let s' := setPixelRatio pixelRatio s in
    let v := viewport (state s) in
    let v' := viewport (state s') in
    Viewport.pixelRatio v'
    = match pixelRatio with
      | Pair a b => JS.Math_max (JS.Math_min a (Host.devicePixelRatio (host s))) b
      | Scalar r => r
      end
    /\ (Viewport.initialPixelRatio v' = Viewport.initialPixelRatio v
        /\ Viewport.width v' = Viewport.width v
        /\ Viewport.height v' = Viewport.height v
        /\ Viewport.aspect v' = Viewport.aspect v
        /\ Viewport.distance v' = Viewport.distance v
        /\ Viewport.factor v' = Viewport.factor v)
    /\ (camera (state s') = camera (state s)
        /\ size (state s') = size (state s)
        /\ performance (state s') = performance (state s)
        /\ vr (state s') = vr (state s)
        /\ noninteractive (state s') = noninteractive (state s)
        /\ linear (state s') = linear (state s)
        /\ frameloop (state s') = frameloop (state s)
        /\ updateCamera (state s') = updateCamera (state s))
    /\ (internal s' = internal s
        /\ host s' = host s
        /\ closureCamera s' = closureCamera s
        /\ performanceTimeout s' = performanceTimeout s)
    /\ (forall (Math_tan : float -> float) (props : MockStoreProps),
          Viewport.pixelRatio
            (viewport (state (setPixelRatio (Pair 1 2)
                                (createMockStore Math_tan 3 props))))
          = 2%float).
Proof.
  intros pixelRatio s. simpl.
  split; [destruct pixelRatio; reflexivity|].
  do 3 (split; [repeat split|]).
  intros Math_tan props. rewrite host_createMockStore. reflexivity.
Qed.

(** ** Not-a-number *)

Lemma is_nan_Prim2SF (f : float) : is_nan f = true -> Prim2SF f = S754_nan.
Proof. intros H. unfold Prim2SF. now rewrite H. Qed.

Lemma Prim2SF_is_nan (f : float) : Prim2SF f = S754_nan -> is_nan f = true.
Proof. intros H. unfold is_nan. rewrite eqb_spec, H. reflexivity. Qed.

Lemma is_nan_mul_r (a b : float) : is_nan b = true -> is_nan (a * b)%float = true.
Proof.
  intros H. apply Prim2SF_is_nan. rewrite mul_spec, (is_nan_Prim2SF b H).
  destruct (Prim2SF a); reflexivity.
Qed.

Lemma is_nan_div_r (a b : float) : is_nan b = true -> is_nan (a / b)%float = true.
Proof.
  intros H. apply Prim2SF_is_nan. rewrite div_spec, (is_nan_Prim2SF b H).
  destruct (Prim2SF a); reflexivity.
Qed.

(** A zero over a positive number is zero, and a positive number over zero
    is infinite; "positive" includes infinity. *)
Lemma zero_div_positive (h : float) :
  (0 <? h)%float = true -> (0 / h)%float = 0%float.
Proof.
  intros H. apply Prim2SF_inj. rewrite div_spec. rewrite ltb_spec in H.
  replace (Prim2SF 0%float) with (S754_zero false) in * by reflexivity.
  unfold SFltb in H.
  destruct (Prim2SF h) as [s|s| |s m e]; simpl in H; try discriminate;
    destruct s; try discriminate; reflexivity.
Qed.

Lemma positive_div_zero (w : float) :
  (0 <? w)%float = true -> (w / 0)%float = infinity.
Proof.
  intros H. apply Prim2SF_inj. rewrite div_spec. rewrite ltb_spec in H.
  replace (Prim2SF 0%float) with (S754_zero false) in * by reflexivity.
  replace (Prim2SF infinity) with (S754_infinity false) by reflexivity.
  unfold SFltb in H.
  destruct (Prim2SF w) as [s|s| |s m e]; simpl in H; try discriminate;
    destruct s; try discriminate; reflexivity.
Qed.

(** C9 fails as stated: the store constructed without a size holds the
    numbers 0 for aspect and factor, and for an orthographic camera the
    computed factor at 0 x 0 is 1. *)
Lemma fresh_viewport_is_zero_not_nan :
  (forall Math_tan : float -> float,
      let v := viewport (state (createMockStore Math_tan 1 noProps)) in
      Viewport.aspect v = 0%float /\ Viewport.factor v = 0%float)
  /\ is_nan 0%float = false
  /\ (forall Math_tan : float -> float,
        Geometry.factor
          (getCurrentViewport Math_tan
             (THREE.OrthographicCamera (THREE.vec3 0 0 5) 100) defaultTarget (Size.mk 0 0))
        = 1%float)
  /\ is_nan 1%float = false.
Proof. repeat split. Qed.

(** C9, amended.  The viewport computation is a total function: it yields a
    value for every camera, target and size.  A store constructed without a
    size holds aspect 0 and factor 0.  Computed at 0 x 0, aspect is
    not-a-number; factor is then not-a-number for a perspective camera and 1
    for an orthographic one.  With a single zero dimension and the other one
    positive, aspect is 0 (zero width) or infinite (zero height), whatever
    the camera and the target. *)
Theorem viewport_at_zero_size :
  forall (Math_tan : float -> float),
    (forall dpr vr ni lin ortho fl uc pr perf cam,
        let props := mkProps None vr ni lin ortho fl uc pr perf cam in
        let v := viewport (state (createMockStore Math_tan dpr props)) in
        size (state (createMockStore Math_tan dpr props)) = Size.mk 0 0
        /\ Viewport.aspect v = 0%float /\ Viewport.factor v = 0%float)
    /\ (forall c target,
          is_nan (Geometry.aspect (getCurrentViewport Math_tan c target (Size.mk 0 0))) = true)
    /\ (forall position fov zoom target,
          is_nan (Geometry.factor
                    (getCurrentViewport Math_tan
                       (THREE.PerspectiveCamera position fov zoom) target (Size.mk 0 0))) = true)
    /\ (forall position zoom target sz,
          Geometry.factor
            (getCurrentViewport Math_tan
               (THREE.OrthographicCamera position zoom) target sz) = 1%float)
    /\ (forall c target,
          Geometry.aspect (getCurrentViewport Math_tan c target (Size.mk 0 100)) = 0%float
          /\ Geometry.aspect (getCurrentViewport Math_tan c target (Size.mk 100 0)) = infinity)
    /\ (forall c target height,
          (0 <? height)%float = true ->
          Geometry.aspect (getCurrentViewport Math_tan c target (Size.mk 0 height))
          = 0%float)
    /\ (forall c target width,
          (0 <? width)%float = true ->
          Geometry.aspect (getCurrentViewport Math_tan c target (Size.mk width 0))
          = infinity).
Proof.
  intros Math_tan.
  split; [intros; repeat split|].
  split; [intros c target; destruct c; reflexivity|].
  split.
  - intros position fov zoom target. simpl.
    apply is_nan_div_r, is_nan_mul_r. reflexivity.
  - split; [reflexivity|].
    split; [intros c target; destruct c; split; reflexivity|].
    split.
    + intros c target height H. destruct c; simpl; now apply zero_div_positive.
    + intros c target width H. destruct c; simpl; now apply positive_div_zero.
Qed.

(** After [setSize] the size, the viewport and the single notification are
    as follows; the camera read is the one captured at construction. *)
Lemma setSize_one_transition (Math_tan : float -> float) (w h : float) (s : Store) :
  let s' := setSize Math_tan w h s in
  size (state s') = Size.mk w h
  /\ viewport (state s')
     = Viewport.spread (viewport (state s))
         (getCurrentViewport Math_tan (closureCamera s) defaultTarget (Size.mk w h))
  /\ Viewport.aspect (viewport (state s')) = (w / h)%float
  /\ published s' = published s ++ [state s'].
Proof. simpl. repeat split. destruct (closureCamera s); reflexivity. Qed.

(** C1 at the failing input: an orthographic store, its camera replaced by
    one of zoom 2, then [setSize(200, 100)].  The stored viewport width is
    200 / 100 = 2, from the zoom of the construction camera; the camera in
    the state has zoom 2, for which the computation gives 100. *)
Theorem setSize_reads_construction_camera :
  forall (Math_tan : float -> float) (dpr : float),
    let props :=
      mkProps None None None None (Some true) None None None
        Performance.noOverride None in
    let replacement := THREE.OrthographicCamera (THREE.vec3 0 0 5) 2 in
    let s := setSize Math_tan 200 100
               (setCamera replacement (createMockStore Math_tan dpr props)) in
    camera (state s) = replacement
    /\ closureCamera s = THREE.OrthographicCamera (THREE.vec3 0 0 5) 100
    /\ Viewport.width (viewport (state s)) = 2%float
    /\ Geometry.width
         (getCurrentViewport Math_tan (camera (state s)) defaultTarget (size (state s)))
       = 100%float.
Proof. intros. repeat split. Qed.

(** ** Order on numbers *)

Lemma SFleb_refl_l (x y : spec_float) : SFleb x y = true -> SFleb x x = true.
Proof.
  unfold SFleb. destruct x as [s|s| |s m e]; simpl; try reflexivity; try discriminate.
  - destruct s; reflexivity.
  - intros _. destruct s; rewrite Z.compare_refl;
      change (Pos.compare_cont Eq m m) with (m ?= m)%positive;
      rewrite Pos.compare_refl; reflexivity.
Qed.

Lemma SFleb_refl_r (x y : spec_float) : SFleb x y = true -> SFleb y y = true.
Proof.
  unfold SFleb. destruct y as [s|s| |s m e]; simpl; try reflexivity.
  - destruct s; reflexivity.
  - destruct x; discriminate.
  - intros _. destruct s; rewrite Z.compare_refl;
      change (Pos.compare_cont Eq m m) with (m ?= m)%positive;
      rewrite Pos.compare_refl; reflexivity.
Qed.

Lemma SFleb_trans (x y z : spec_float) :
  SFleb x y = true -> SFleb y z = true -> SFleb x z = true.
Proof.
  unfold SFleb.
  destruct x as [sx|sx| |sx mx ex], y as [sy|sy| |sy my ey], z as [sz|sz| |sz mz ez];
    simpl; try discriminate; try reflexivity;
    try (destruct sx); try (destruct sy); try (destruct sz);
    simpl; try discriminate; try reflexivity.
  all: change (Pos.compare_cont Eq) with Pos.compare.
  all: destruct (Z.compare_spec ex ey), (Z.compare_spec ey ez), (Z.compare_spec ex ez);
    simpl; try discriminate; try reflexivity; try lia.
  all: subst.
  all: destruct (Pos.compare_spec mx my), (Pos.compare_spec my mz), (Pos.compare_spec mx mz);
    simpl; try discriminate; try reflexivity; try lia.
Qed.

Lemma leb_refl_l (a b : float) : (a <=? b)%float = true -> (a <=? a)%float = true.
Proof. rewrite !leb_spec. apply SFleb_refl_l. Qed.

Lemma leb_refl_r (a b : float) : (a <=? b)%float = true -> (b <=? b)%float = true.
Proof. rewrite !leb_spec. apply SFleb_refl_r. Qed.

Lemma leb_trans (a b c : float) :
  (a <=? b)%float = true -> (b <=? c)%float = true -> (a <=? c)%float = true.
Proof. rewrite !leb_spec. apply SFleb_trans. Qed.

(** ** Performance governor *)

Lemma performance_createMockStore
    (Math_tan : float -> float) (dpr : float) (props : MockStoreProps) :
  performance (state (createMockStore Math_tan dpr props))
  = Performance.initial (p_performance props).
Proof. unfold createMockStore. destruct (p_size props); reflexivity. Qed.

Lemma governed_recover (p0 : Performance.t) (t : N) (s : Store) :
  governed p0 (performance (state s)) ->
  governed p0 (performance (state (recover t s))).
Proof.
  intros (Hmin & Hmax & Hd & _). unfold governed. simpl.
  repeat split; try assumption. right; right. exact Hmax.
Qed.

Lemma governed_recover_all (p0 : Performance.t) (ready : list Host.Timer) :
  forall s : Store,
    governed p0 (performance (state s)) ->
    governed p0
      (performance (state (fold_left (fun s tm => recover (Host.due tm) s) ready s))).
Proof.
  induction ready as [|tm ready IH]; intros s H; simpl; [exact H|].
  apply IH, governed_recover, H.
Qed.

Lemma governed_step
    (Math_tan : float -> float) (timerDelay : float -> N)
    (p0 : Performance.t) (s : Store) (o : StoreOp) :
  governed p0 (performance (state s)) ->
  governed p0 (performance (state (storeStep Math_tan timerDelay s o))).
Proof.
  intros H. destruct o as [w h|c|r| |dt]; simpl; try exact H.
  - destruct H as (Hmin & Hmax & Hd & _). unfold governed. simpl.
    repeat split; try assumption. right; left. exact Hmin.
  - unfold elapse. apply governed_recover_all. exact H.
Qed.

Lemma governed_run
    (Math_tan : float -> float) (timerDelay : float -> N)
    (p0 : Performance.t) (ops : list StoreOp) :
  forall s : Store,
    governed p0 (performance (state s)) ->
    governed p0 (performance (state (storeRun Math_tan timerDelay ops s))).
Proof.
  induction ops as [|o ops IH]; intros s H; simpl; [exact H|].
  apply IH, governed_step, H.
Qed.

Lemma governed_reachable
    (Math_tan : float -> float) (timerDelay : float -> N)
    (dpr : float) (props : MockStoreProps) (ops : list StoreOp) :
  governed (Performance.initial (p_performance props))
    (performance (state (storeRun Math_tan timerDelay ops
                           (createMockStore Math_tan dpr props)))).
Proof.
  apply governed_run. rewrite performance_createMockStore.
  unfold governed. repeat split. now left.
Qed.

(** C8 fails as stated: a [performance] prop that only sets [max] to 0.5
    leaves [current] at 1 in the constructed store. *)
Lemma performance_override_breaks_bounds :
  let props :=
    mkProps None None None None None None None None
      (Performance.mkOverride None None (Some 0.5%float) None) None in
  (forall Math_tan : float -> float,
      let p := performance (state (createMockStore Math_tan 1 props)) in
      Performance.current p = 1%float /\ Performance.max p = 0.5%float
      /\ withinBounds p = false)
  /\ (1 <=? 0.5)%float = false.
Proof. repeat split. Qed.

(** C8, amended.  When the constructed performance values satisfy
    min <= current <= max (as the defaults 0.5, 1, 1 do), the inequality
    holds in every state reached through setters, [regress] calls and timer
    firings. *)
Theorem performance_within_bounds :
  forall (Math_tan : float -> float) (timerDelay : float -> N)
         (dpr : float) (props : MockStoreProps) (ops : list StoreOp),
    withinBounds (Performance.initial (p_performance props)) = true ->
    let p := performance (state (storeRun Math_tan timerDelay ops
                                   (createMockStore Math_tan dpr props))) in
    (Performance.min p <=? Performance.current p)%float = true
    /\ (Performance.current p <=? Performance.max p)%float = true.
Proof.
  intros Math_tan timerDelay dpr props ops H0 p.
  apply andb_true_iff in H0. destruct H0 as [Hlo Hhi].
  destruct (governed_reachable Math_tan timerDelay dpr props ops)
    as (Hmin & Hmax & _ & Hcur).
  fold p in Hmin, Hmax, Hcur. rewrite Hmin, Hmax.
  destruct Hcur as [E|[E|E]]; rewrite E; split;
    eauto using leb_refl_l, leb_refl_r, leb_trans.
Qed.

Lemma performance_within_bounds_witness :
  let p := performance (state (storeRun (fun x => x) (fun _ => 200%N)
                                 [Regress; Elapse 100; SetSize 200 100; Regress; Elapse 250]
                                 (createMockStore (fun x => x) 1 noProps))) in
  (Performance.min p <=? Performance.current p)%float = true
  /\ (Performance.current p <=? Performance.max p)%float = true.
Proof.
  apply (performance_within_bounds (fun x => x) (fun _ => 200%N) 1 noProps
           [Regress; Elapse 100; SetSize 200 100; Regress; Elapse 250]).
  reflexivity.
Defined.

(** *** The recovery timer *)

Lemma recover_all_host (ready : list Host.Timer) :
  forall s : Store,
    let s' := fold_left (fun s tm => recover (Host.due tm) s) ready s in
    Host.pending (host s') = Host.pending (host s)
    /\ Host.now (host s') = Host.now (host s)
    /\ Host.nextId (host s') = Host.nextId (host s)
    /\ Host.fired (host s') = Host.fired (host s) ++ map Host.due ready
    /\ performanceTimeout s' = performanceTimeout s.
Proof.
  induction ready as [|tm ready IH]; intros s; simpl.
  - rewrite app_nil_r. repeat split.
  - destruct (IH (recover (Host.due tm) s)) as (Hp & Hn & Hi & Hf & Ht).
    rewrite Hp, Hn, Hi, Hf, Ht. simpl. rewrite <- app_assoc. repeat split.
Qed.

Lemma elapse_pending (dt : N) (s : Store) :
  Host.pending (host (elapse dt s))
  = filter (fun tm => negb (isDue (Host.now (host s) + dt) tm)) (Host.pending (host s))
  /\ performanceTimeout (elapse dt s) = performanceTimeout s
  /\ Host.now (host (elapse dt s)) = (Host.now (host s) + dt)%N
  /\ Host.nextId (host (elapse dt s)) = Host.nextId (host s)
  /\ Host.fired (host (elapse dt s))
     = Host.fired (host s)
       ++ map Host.due
            (JS.Array_sort compareDue
               (filter (isDue (Host.now (host s) + dt)) (Host.pending (host s)))).
Proof.
  unfold elapse.
  match goal with
  | |- context [fold_left ?f ?l ?s0] =>
      destruct (recover_all_host l s0) as (Hp & Hn & Hi & Hf & Ht)
  end.
  simpl in *. rewrite Hp, Hn, Hi, Hf, Ht. repeat split.
Qed.

Lemma regress_pending (timerDelay : float -> N) (s : Store) :
  oneTimer s ->
  Host.pending (host (regress timerDelay s))
  = [ {| Host.id := Host.nextId (host s);
         Host.due := (Host.now (host s)
                      + timerDelay (Performance.debounce (performance (state s))))%N |} ].
Proof.
  intros [H|[tm [H Ht]]]; unfold regress; simpl.
  - destruct (performanceTimeout s); simpl; rewrite H; reflexivity.
  - rewrite Ht. simpl. rewrite H. simpl. rewrite Nat.eqb_refl. reflexivity.
Qed.

Lemma regress_state (timerDelay : float -> N) (s : Store) :
  let s' := regress timerDelay s in
  performance (state s')
  = Performance.withCurrent (performance (state s))
      (Performance.min (performance (state s)))
  /\ performanceTimeout s' = Some (Host.nextId (host s))
  /\ Host.now (host s') = Host.now (host s)
  /\ Host.nextId (host s') = S (Host.nextId (host s))
  /\ Host.fired (host s') = Host.fired (host s).
Proof.
  unfold regress. simpl. destruct (performanceTimeout s); simpl; repeat split.
Qed.

Lemma oneTimer_step
    (Math_tan : float -> float) (timerDelay : float -> N) (s : Store) (o : StoreOp) :
  oneTimer s -> oneTimer (storeStep Math_tan timerDelay s o).
Proof.
  intros H. destruct o as [w h|c|r| |dt]; simpl; try exact H.
  - right. eexists. split; [apply regress_pending, H|].
    apply (regress_state timerDelay s).
  - destruct (elapse_pending dt s) as (Hp & Ht & _).
    unfold oneTimer. rewrite Hp, Ht.
    destruct H as [H|[tm [H Htm]]]; rewrite H; simpl; [now left|].
    destruct (isDue (Host.now (host s) + dt) tm); simpl; [now left|].
    right. exists tm. now split.
Qed.

Lemma oneTimer_reachable
    (Math_tan : float -> float) (timerDelay : float -> N)
    (dpr : float) (props : MockStoreProps) (ops : list StoreOp) :
  oneTimer (storeRun Math_tan timerDelay ops (createMockStore Math_tan dpr props)).
Proof.
  assert (H : oneTimer (createMockStore Math_tan dpr props)).
  { left. now rewrite host_createMockStore. }
  revert H. generalize (createMockStore Math_tan dpr props).
  induction ops as [|o ops IH]; intros s H; simpl; [exact H|].
  apply IH, oneTimer_step, H.
Qed.

Lemma oneTimer_length (s : Store) :
  oneTimer s -> (length (Host.pending (host s)) <= 1)%nat.
Proof. intros [H|[tm [H _]]]; rewrite H; simpl; lia. Qed.

Lemma elapse_performance_idle (dt : N) (s : Store) :
  filter (isDue (Host.now (host s) + dt)) (Host.pending (host s)) = [] ->
  performance (state (elapse dt s)) = performance (state s).
Proof. intros H. unfold elapse. rewrite H. reflexivity. Qed.

Lemma elapse_performance_fire (dt : N) (tm : Host.Timer) (s : Store) :
  filter (isDue (Host.now (host s) + dt)) (Host.pending (host s)) = [tm] ->
  performance (state (elapse dt s))
  = Performance.withCurrent (performance (state s))
      (Performance.max (performance (state s))).
Proof. intros H. unfold elapse. rewrite H. reflexivity. Qed.

(** C7.  In any state reached from construction, [regress] drops [current]
    to [min] at once and leaves exactly one recovery timer pending, due
    [debounce] later; no reachable state has two.  A second [regress] within
    the debounce window replaces the timer, so that once the window of the
    second call has passed exactly one recovery has run, at the second
    call's time plus [debounce], and [current] is back at [max]. *)
Theorem regress_debounced :
  forall (Math_tan : float -> float) (timerDelay : float -> N)
         (dpr : float) (props : MockStoreProps) (ops : list StoreOp) (d e : N),
    let s := storeRun Math_tan timerDelay ops (createMockStore Math_tan dpr props) in
    let p := performance (state s) in
    let t := Host.now (host s) in
    let n := Host.nextId (host s) in
    let D := timerDelay (Performance.debounce p) in
    (d < D)%N -> (D <= e)%N ->
    let s1 := regress timerDelay s in
    let s2 := regress timerDelay (elapse d s1) in
    let s3 := elapse e s2 in
    (length (Host.pending (host s)) <= 1)%nat
    /\ (Performance.current (performance (state s1)) = Performance.min p
        /\ Host.pending (host s1) = [ {| Host.id := n; Host.due := (t + D)%N |} ]
        /\ performanceTimeout s1 = Some n
        /\ Host.fired (host s1) = Host.fired (host s))
    /\ (Performance.current (performance (state s2)) = Performance.min p
        /\ Host.pending (host s2) = [ {| Host.id := S n; Host.due := (t + d + D)%N |} ]
        /\ performanceTimeout s2 = Some (S n)
        /\ Host.fired (host s2) = Host.fired (host s))
    /\ (Performance.current (performance (state s3)) = Performance.max p
        /\ Host.pending (host s3) = []
        /\ Host.fired (host s3) = Host.fired (host s) ++ [(t + d + D)%N]).
Proof.
  intros Math_tan timerDelay dpr props ops d e s p t n D Hd He s1 s2 s3.
  assert (H0 : oneTimer s) by apply oneTimer_reachable.
  clearbody s.
  (* first call *)
  destruct (regress_state timerDelay s) as (Hp1 & Ht1 & Hn1 & Hi1 & Hf1).
  pose proof (regress_pending timerDelay s H0) as Hq1.
  fold s1 p t n D in Hp1, Ht1, Hn1, Hi1, Hf1, Hq1.
  clearbody s1.
  (* the wait inside the window *)
  set (se := elapse d s1) in *.
  destruct (elapse_pending d s1) as (Hqe & Hte & Hne & Hie & Hfe).
  fold se in Hqe, Hte, Hne, Hie, Hfe.
  assert (Hidle : isDue (t + d) {| Host.id := n; Host.due := (t + D)%N |} = false).
  { unfold isDue. simpl. apply N.leb_gt. lia. }
  assert (Hnone : filter (isDue (Host.now (host s1) + d)) (Host.pending (host s1)) = []).
  { rewrite Hq1, Hn1. simpl. now rewrite Hidle. }
  rewrite Hnone in Hfe. simpl in Hfe. rewrite app_nil_r in Hfe.
  rewrite Hq1, Hn1 in Hqe. simpl in Hqe. rewrite Hidle in Hqe. simpl in Hqe.
  assert (Hpe : performance (state se) = performance (state s1))
    by (apply elapse_performance_idle, Hnone).
  assert (H1 : oneTimer se).
  { right. eexists. split; [exact Hqe|]. now rewrite Hte, Ht1. }
  clearbody se.
  (* second call *)
  destruct (regress_state timerDelay se) as (Hp2 & Ht2 & Hn2 & Hi2 & Hf2).
  pose proof (regress_pending timerDelay se H1) as Hq2.
  fold s2 in Hp2, Ht2, Hn2, Hi2, Hf2, Hq2.
  clearbody s2.
  rewrite Hpe, Hp1 in Hp2, Hq2. simpl in Hp2, Hq2.
  rewrite Hie, Hi1 in Ht2, Hi2, Hq2. rewrite Hne, Hn1 in Hn2, Hq2.
  fold p t n D in Hp2, Hq2.
  (* the wait past the window *)
  destruct (elapse_pending e s2) as (Hq3 & _ & _ & _ & Hf3).
  assert (Hdue : isDue (t + d + e) {| Host.id := S n; Host.due := (t + d + D)%N |} = true).
  { unfold isDue. simpl. apply N.leb_le. lia. }
  assert (Hone : filter (isDue (Host.now (host s2) + e)) (Host.pending (host s2))
                 = [ {| Host.id := S n; Host.due := (t + d + D)%N |} ]).
  { rewrite Hq2, Hn2. simpl. now rewrite Hdue. }
  pose proof (elapse_performance_fire e _ s2 Hone) as Hp3.
  rewrite Hone in Hf3. simpl in Hf3.
  rewrite Hq2, Hn2 in Hq3. simpl in Hq3. rewrite Hdue in Hq3. simpl in Hq3.
  fold s3 in Hq3, Hf3, Hp3. clearbody s3.
  split; [now apply oneTimer_length|].
  split; [rewrite Hp1; repeat split; assumption|].
  split; [rewrite Hp2; repeat split; try assumption; now rewrite Hf2, Hfe, Hf1|].
  rewrite Hp3, Hp2. repeat split; [exact Hq3|].
  now rewrite Hf3, Hf2, Hfe, Hf1.
Qed.

Lemma regress_debounced_witness :
  let s := storeRun (fun x => x) (fun _ => 200%N) [Regress; Elapse 50]
             (createMockStore (fun x => x) 1 noProps) in
  let s1 := regress (fun _ => 200%N) s in
  let s2 := regress (fun _ => 200%N) (elapse 120 s1) in
  let s3 := elapse 200 s2 in
  (length (Host.pending (host s)) <= 1)%nat
  /\ (Performance.current (performance (state s1)) = 0.5%float
      /\ Host.pending (host s1) = [ {| Host.id := 1; Host.due := 250%N |} ]
      /\ performanceTimeout s1 = Some 1%nat
      /\ Host.fired (host s1) = [])
  /\ (Performance.current (performance (state s2)) = 0.5%float
      /\ Host.pending (host s2) = [ {| Host.id := 2; Host.due := 370%N |} ]
      /\ performanceTimeout s2 = Some 2%nat
      /\ Host.fired (host s2) = [])
  /\ (Performance.current (performance (state s3)) = 1%float
      /\ Host.pending (host s3) = []
      /\ Host.fired (host s3) = [370%N]).
Proof.
  apply (regress_debounced (fun x => x) (fun _ => 200%N) 1 noProps
           [Regress; Elapse 50] 120 200).
  - reflexivity.
  - vm_compute. discriminate.
Defined.

(** * Further properties *)

(** ** What the governor leaves alone *)

Lemma recover_all_frame (ready : list Host.Timer) :
  forall s : Store,
    let s' := fold_left (fun s tm => recover (Host.due tm) s) ready s in
    camera (state s') = camera (state s)
    /\ size (state s') = size (state s)
    /\ viewport (state s') = viewport (state s)
    /\ closureCamera s' = closureCamera s
    /\ Host.devicePixelRatio (host s') = Host.devicePixelRatio (host s).
Proof.
  induction ready as [|tm ready IH]; intros s; simpl; [repeat split|].
  destruct (IH (recover (Host.due tm) s)) as (Hc & Hs & Hv & Hk & Hd).
  rewrite Hc, Hs, Hv, Hk, Hd. repeat split.
Qed.

Lemma elapse_frame (dt : N) (s : Store) :
  camera (state (elapse dt s)) = camera (state s)
  /\ size (state (elapse dt s)) = size (state s)
  /\ viewport (state (elapse dt s)) = viewport (state s)
  /\ closureCamera (elapse dt s) = closureCamera s
  /\ Host.devicePixelRatio (host (elapse dt s)) = Host.devicePixelRatio (host s).
Proof.
  unfold elapse.
  match goal with
  | |- context [fold_left ?f ?l ?s0] =>
      destruct (recover_all_frame l s0) as (Hc & Hs & Hv & Hk & Hd)
  end.
  simpl in *. rewrite Hc, Hs, Hv, Hk, Hd. repeat split.
Qed.

Lemma regress_frame (timerDelay : float -> N) (s : Store) :
  camera (state (regress timerDelay s)) = camera (state s)
  /\ size (state (regress timerDelay s)) = size (state s)
  /\ viewport (state (regress timerDelay s)) = viewport (state s)
  /\ closureCamera (regress timerDelay s) = closureCamera s
  /\ Host.devicePixelRatio (host (regress timerDelay s)) = Host.devicePixelRatio (host s).
Proof.
  unfold regress. simpl. destruct (performanceTimeout s); simpl; repeat split.
Qed.

(** ** Viewport and size over whole histories *)

Lemma geometryOf_spread (v : Viewport.t) (g : Geometry.t) :
  geometryOf (Viewport.spread v g) = g.
Proof. destruct g; reflexivity. Qed.

Lemma viewportTracksSize_step
    (Math_tan : float -> float) (timerDelay : float -> N) (s : Store) (o : StoreOp) :
  viewportTracksSize Math_tan s ->
  viewportTracksSize Math_tan (storeStep Math_tan timerDelay s o)
  /\ closureCamera (storeStep Math_tan timerDelay s o) = closureCamera s.
Proof.
  intros H. destruct o as [w h|c|r| |dt]; simpl.
  - split; [right; apply geometryOf_spread|reflexivity].
  - split; [exact H|reflexivity].
  - split; [exact H|reflexivity].
  - destruct (regress_frame timerDelay s) as (_ & Hs & Hv & Hk & _).
    unfold viewportTracksSize. rewrite Hs, Hv, Hk. now split.
  - destruct (elapse_frame dt s) as (_ & Hs & Hv & Hk & _).
    unfold viewportTracksSize. rewrite Hs, Hv, Hk. now split.
Qed.

Lemma viewportTracksSize_run
    (Math_tan : float -> float) (timerDelay : float -> N) (ops : list StoreOp) :
  forall s : Store,
    viewportTracksSize Math_tan s ->
    viewportTracksSize Math_tan (storeRun Math_tan timerDelay ops s)
    /\ closureCamera (storeRun Math_tan timerDelay ops s) = closureCamera s.
Proof.
  induction ops as [|o ops IH]; intros s H; simpl; [now split|].
  destruct (viewportTracksSize_step Math_tan timerDelay s o H) as [H1 Hk].
  destruct (IH _ H1) as [H2 Hk2]. split; [exact H2|congruence].
Qed.

Lemma closureCamera_createMockStore
    (Math_tan : float -> float) (dpr : float) (props : MockStoreProps) :
  closureCamera (createMockStore Math_tan dpr props) = defaultCamera props.
Proof. unfold createMockStore. destruct (p_size props); reflexivity. Qed.

Lemma viewportTracksSize_createMockStore
    (Math_tan : float -> float) (dpr : float) (props : MockStoreProps) :
  viewportTracksSize Math_tan (createMockStore Math_tan dpr props).
Proof.
  unfold createMockStore. destruct (p_size props) as [sz|].
  - right. apply geometryOf_spread.
  - left. split; reflexivity.
Qed.

(** X1.  In every state reached from construction the stored viewport
    geometry belongs to the stored size: it is what the computation gives
    for the construction camera, the default target and that size, or both
    are still the initial zeros.  The captured camera itself never changes,
    whatever [setCamera] is given. *)
Theorem viewport_tracks_size :
  forall (Math_tan : float -> float) (timerDelay : float -> N)
         (dpr : float) (props : MockStoreProps) (ops : list StoreOp),
    let s := storeRun Math_tan timerDelay ops (createMockStore Math_tan dpr props) in
    closureCamera s = defaultCamera props
    /\ ((size (state s) = Size.mk 0 0
         /\ geometryOf (viewport (state s)) = zeroGeometry)
        \/ geometryOf (viewport (state s))
           = getCurrentViewport Math_tan (defaultCamera props) defaultTarget
               (size (state s))).
Proof.
  intros Math_tan timerDelay dpr props ops s.
  destruct (viewportTracksSize_run Math_tan timerDelay ops _
              (viewportTracksSize_createMockStore Math_tan dpr props)) as [H Hk].
  fold s in H, Hk. rewrite closureCamera_createMockStore in Hk.
  split; [exact Hk|]. unfold viewportTracksSize in H. now rewrite Hk in H.
Qed.

Lemma camera_without_setCamera
    (Math_tan : float -> float) (timerDelay : float -> N) (ops : list StoreOp) :
  forall s : Store,
    forallb (fun o => negb (isSetCamera o)) ops = true ->
    camera (state (storeRun Math_tan timerDelay ops s)) = camera (state s).
Proof.
  induction ops as [|o ops IH]; intros s H; simpl in *; [reflexivity|].
  apply andb_true_iff in H. destruct H as [Ho H].
  rewrite (IH _ H). destruct o as [w h|c|r| |dt]; simpl.
  - reflexivity.
  - discriminate.
  - reflexivity.
  - apply (regress_frame timerDelay s).
  - apply (elapse_frame dt s).
Qed.

Lemma recomputed_run
    (Math_tan : float -> float) (timerDelay : float -> N) (ops : list StoreOp) :
  forall s : Store,
    geometryOf (viewport (state s))
    = getCurrentViewport Math_tan (closureCamera s) defaultTarget (size (state s)) ->
    let s' := storeRun Math_tan timerDelay ops s in
    geometryOf (viewport (state s'))
    = getCurrentViewport Math_tan (closureCamera s') defaultTarget (size (state s')).
Proof.
  induction ops as [|o ops IH]; intros s H; [exact H|].
  apply (IH (storeStep Math_tan timerDelay s o)).
  destruct o as [w h|c|r| |dt]; cbn [storeStep].
  - apply geometryOf_spread.
  - exact H.
  - exact H.
  - destruct (regress_frame timerDelay s) as (_ & Hs & Hv & Hk & _).
    now rewrite Hs, Hv, Hk.
  - destruct (elapse_frame dt s) as (_ & Hs & Hv & Hk & _).
    now rewrite Hs, Hv, Hk.
Qed.

(** X2.  For a store constructed with a size, as long as [setCamera] has not
    been called, the stored viewport geometry is what a call of
    [viewport.getCurrentViewport()] with its default arguments returns. *)
Theorem stored_viewport_is_current :
  forall (Math_tan : float -> float) (timerDelay : float -> N)
         (dpr : float) (props : MockStoreProps) (ops : list StoreOp),
    p_size props <> None ->
    forallb (fun o => negb (isSetCamera o)) ops = true ->
    let s := storeRun Math_tan timerDelay ops (createMockStore Math_tan dpr props) in
    geometryOf (viewport (state s)) = currentViewport Math_tan s.
Proof.
  intros Math_tan timerDelay dpr props ops Hsz Hops s.
  unfold currentViewport.
  assert (Hcam : camera (state s) = closureCamera s).
  { unfold s. rewrite camera_without_setCamera by exact Hops.
    destruct (viewportTracksSize_run Math_tan timerDelay ops _
                (viewportTracksSize_createMockStore Math_tan dpr props)) as [_ Hk].
    rewrite Hk. unfold createMockStore. destruct (p_size props); reflexivity. }
  rewrite Hcam. apply recomputed_run.
  unfold createMockStore.
  destruct (p_size props) as [sz|]; [apply geometryOf_spread|contradiction].
Qed.

Lemma stored_viewport_is_current_witness :
  let props :=
    mkProps (Some (Size.mk 200 100)) None None None (Some true) None None None
      Performance.noOverride None in
  let s := storeRun (fun x => x) (fun _ => 200%N)
             [SetPixelRatio (Scalar 2); Regress; SetSize 300 150; Elapse 500]
             (createMockStore (fun x => x) 1 props) in
  geometryOf (viewport (state s)) = currentViewport (fun x => x) s.
Proof.
  apply (stored_viewport_is_current (fun x => x) (fun _ => 200%N) 1
           (mkProps (Some (Size.mk 200 100)) None None None (Some true) None None None
              Performance.noOverride None)
           [SetPixelRatio (Scalar 2); Regress; SetSize 300 150; Elapse 500]).
  - discriminate.
  - reflexivity.
Defined.

(** ** The pixel ratio over whole histories *)

Lemma pixelRatio_run
    (Math_tan : float -> float) (timerDelay : float -> N) (ops : list StoreOp) :
  forall s : Store,
    let s' := storeRun Math_tan timerDelay ops s in
    Host.devicePixelRatio (host s') = Host.devicePixelRatio (host s)
    /\ Viewport.initialPixelRatio (viewport (state s'))
       = Viewport.initialPixelRatio (viewport (state s))
    /\ Viewport.pixelRatio (viewport (state s'))
       = lastPixelRatio (Host.devicePixelRatio (host s))
           (Viewport.pixelRatio (viewport (state s))) ops.
Proof.
  induction ops as [|o ops IH]; intros s; [repeat split|].
  destruct (IH (storeStep Math_tan timerDelay s o)) as (Hd & Hi & Hr).
  change (storeRun Math_tan timerDelay (o :: ops) s)
    with (storeRun Math_tan timerDelay ops (storeStep Math_tan timerDelay s o)).
  cbv zeta. rewrite Hd, Hi, Hr. clear IH Hd Hi Hr.
  destruct o as [w h|c|r| |dt]; cbn [storeStep lastPixelRatio fold_left].
  - repeat split.
  - repeat split.
  - repeat split.
  - destruct (regress_frame timerDelay s) as (_ & _ & Hv & _ & Hd).
    rewrite Hv, Hd. repeat split.
  - destruct (elapse_frame dt s) as (_ & _ & Hv & _ & Hd).
    rewrite Hv, Hd. repeat split.
Qed.

(** X3.  In every state reached from construction, [viewport.pixelRatio] is
    the clamped argument of the latest [setPixelRatio] call, or the
    constructed ratio when there has been none; [setSize], [setCamera],
    [regress] and timer firings never touch it, and [initialPixelRatio]
    stays the constructed one. *)
Theorem pixelRatio_is_latest_request :
  forall (Math_tan : float -> float) (timerDelay : float -> N)
         (dpr : float) (props : MockStoreProps) (ops : list StoreOp),
    let s := storeRun Math_tan timerDelay ops (createMockStore Math_tan dpr props) in
    let constructed := clampPixelRatio dpr (JS.default (Scalar 1) (p_pixelRatio props)) in
    Viewport.initialPixelRatio (viewport (state s)) = constructed
    /\ Viewport.pixelRatio (viewport (state s)) = lastPixelRatio dpr constructed ops.
Proof.
  intros Math_tan timerDelay dpr props ops s constructed.
  destruct (pixelRatio_run Math_tan timerDelay ops (createMockStore Math_tan dpr props))
    as (_ & Hi & Hr).
  fold s in Hi, Hr. rewrite Hi, Hr, host_createMockStore.
  unfold createMockStore. destruct (p_size props); split; reflexivity.
Qed.

(** ** Comparisons of numbers *)

Lemma SFcompare_antisym (x y : spec_float) :
  SFcompare y x = option_map CompOpp (SFcompare x y).
Proof.
  destruct x as [sx|sx| |sx mx ex], y as [sy|sy| |sy my ey]; simpl;
    try reflexivity;
    try (destruct sx); try (destruct sy); simpl; try reflexivity.
  all: change (Pos.compare_cont Eq) with Pos.compare.
  all: rewrite (Z.compare_antisym ex ey), (Pos.compare_antisym mx my).
  all: destruct (ex ?= ey)%Z; simpl; try reflexivity.
  all: destruct (mx ?= my)%positive; reflexivity.
Qed.

Lemma SFcompare_defined (x y : spec_float) :
  x <> S754_nan -> y <> S754_nan -> exists c, SFcompare x y = Some c.
Proof.
  intros Hx Hy. destruct x, y; simpl; try contradiction; eauto.
Qed.

Lemma not_nan_Prim2SF (a : float) : is_nan a = false -> Prim2SF a <> S754_nan.
Proof. intros H E. apply Prim2SF_is_nan in E. congruence. Qed.

Lemma compare_defined (a b : float) :
  is_nan a = false -> is_nan b = false ->
  exists c, SFcompare (Prim2SF a) (Prim2SF b) = Some c
            /\ SFcompare (Prim2SF b) (Prim2SF a) = Some (CompOpp c).
Proof.
  intros Ha Hb.
  destruct (SFcompare_defined _ _ (not_nan_Prim2SF a Ha) (not_nan_Prim2SF b Hb)) as [c Hc].
  exists c. split; [exact Hc|]. now rewrite SFcompare_antisym, Hc.
Qed.

Lemma leb_not_nan (a b : float) :
  (a <=? b)%float = true -> is_nan a = false /\ is_nan b = false.
Proof.
  rewrite leb_spec. unfold SFleb. intros H.
  split.
  - destruct (is_nan a) eqn:E; [|reflexivity].
    rewrite (is_nan_Prim2SF a E) in H. discriminate.
  - destruct (is_nan b) eqn:E; [|reflexivity].
    rewrite (is_nan_Prim2SF b E) in H. destruct (Prim2SF a); discriminate.
Qed.

Lemma leb_refl (a : float) : is_nan a = false -> (a <=? a)%float = true.
Proof.
  intros Ha. destruct (compare_defined a a Ha Ha) as [c [H1 H2]].
  rewrite leb_spec. unfold SFleb. rewrite H1.
  rewrite H1 in H2. destruct c; try reflexivity; discriminate.
Qed.

Lemma eqb_refl (a : float) : is_nan a = false -> (a =? a)%float = true.
Proof.
  intros Ha. destruct (compare_defined a a Ha Ha) as [c [H1 H2]].
  rewrite eqb_spec. unfold SFeqb. rewrite H1.
  rewrite H1 in H2. destruct c; try reflexivity; discriminate.
Qed.

Lemma ltb_leb (a b : float) : (a <? b)%float = true -> (a <=? b)%float = true.
Proof.
  rewrite ltb_spec, leb_spec. unfold SFltb, SFleb.
  destruct (SFcompare (Prim2SF a) (Prim2SF b)) as [[| |]|]; congruence.
Qed.

Lemma ltb_false_leb (a b : float) :
  is_nan a = false -> is_nan b = false ->
  (a <? b)%float = false -> (b <=? a)%float = true.
Proof.
  intros Ha Hb. destruct (compare_defined a b Ha Hb) as [c [H1 H2]].
  rewrite ltb_spec, leb_spec. unfold SFltb, SFleb. rewrite H1, H2.
  destruct c; simpl; congruence.
Qed.

Lemma leb_ltb_false (a b : float) :
  (a <=? b)%float = true -> (b <? a)%float = false.
Proof.
  intros H. destruct (leb_not_nan a b H) as [Ha Hb].
  destruct (compare_defined a b Ha Hb) as [c [H1 H2]].
  revert H. rewrite ltb_spec, leb_spec. unfold SFltb, SFleb. rewrite H1, H2.
  destruct c; simpl; congruence.
Qed.

Lemma leb_not_ltb_eqb (a b : float) :
  (a <=? b)%float = true -> (a <? b)%float = false -> (a =? b)%float = true.
Proof.
  rewrite ltb_spec, leb_spec, eqb_spec. unfold SFltb, SFleb, SFeqb.
  destruct (SFcompare (Prim2SF a) (Prim2SF b)) as [[| |]|]; congruence.
Qed.

(** [Math.min] of two numbers is one of them and not above the first. *)
Lemma Math_min_spec (a b : float) :
  is_nan a = false -> is_nan b = false ->
  (JS.Math_min a b = a \/ JS.Math_min a b = b)
  /\ (JS.Math_min a b <=? a)%float = true.
Proof.
  intros Ha Hb. unfold JS.Math_min. rewrite Ha, Hb. simpl.
  destruct (a <? b)%float eqn:Hab.
  - split; [now left|now apply leb_refl].
  - destruct (b <? a)%float eqn:Hba.
    + split; [now right|now apply ltb_leb].
    + destruct (get_sign a).
      * split; [now left|now apply leb_refl].
      * split; [now right|now apply ltb_false_leb].
Qed.

(** [Math.max] of two numbers is one of them and not below the second. *)
Lemma Math_max_spec (a b : float) :
  is_nan a = false -> is_nan b = false ->
  (JS.Math_max a b = a \/ JS.Math_max a b = b)
  /\ (b <=? JS.Math_max a b)%float = true.
Proof.
  intros Ha Hb. unfold JS.Math_max. rewrite Ha, Hb. simpl.
  destruct (a <? b)%float eqn:Hab.
  - split; [now right|now apply leb_refl].
  - destruct (b <? a)%float eqn:Hba.
    + split; [now left|now apply ltb_leb].
    + destruct (get_sign a).
      * split; [now right|now apply leb_refl].
      * split; [now left|now apply ltb_false_leb].
Qed.

Lemma Math_min_nan (a b : float) :
  is_nan a || is_nan b = true -> JS.Math_min a b = nan.
Proof. intros H. unfold JS.Math_min. now rewrite H. Qed.

Lemma Math_max_nan (a b : float) :
  is_nan a || is_nan b = true -> JS.Math_max a b = nan.
Proof. intros H. unfold JS.Math_max. now rewrite H. Qed.

(** ** The pixel-ratio clamp *)

(** X5.  With no NaN among the pair and the device pixel ratio, the clamped
    ratio is one of the three numbers and is never below the second element
    of the pair. *)
Theorem clampPixelRatio_at_least_second :
  forall a b dpr : float,
    is_nan a = false -> is_nan b = false -> is_nan dpr = false ->
    let r := clampPixelRatio dpr (Pair a b) in
    (r = a \/ r = dpr \/ r = b) /\ (b <=? r)%float = true.
Proof.
  intros a b dpr Ha Hb Hd r. unfold r. simpl.
  destruct (Math_min_spec a dpr Ha Hd) as [Hm _].
  assert (Hn : is_nan (JS.Math_min a dpr) = false)
    by (destruct Hm as [E|E]; rewrite E; assumption).
  destruct (Math_max_spec (JS.Math_min a dpr) b Hn Hb) as [Hx Hle].
  split; [|exact Hle].
  destruct Hx as [E|E]; rewrite E; [|now right; right].
  destruct Hm as [E'|E']; rewrite E'; [now left|now right; left].
Qed.

Lemma clampPixelRatio_at_least_second_witness :
  let r := clampPixelRatio 3 (Pair 4 2) in
  (r = 4%float \/ r = 3%float \/ r = 2%float) /\ (2 <=? r)%float = true.
Proof.
  apply (clampPixelRatio_at_least_second 4 2 3); reflexivity.
Defined.

(** X6.  For a pair given in ascending order the clamp returns a number
    equal to the pair's second element whatever the device pixel ratio is
    (short of NaN): max(min(a, dpr), b) with a <= b compares equal to b. *)
Theorem clampPixelRatio_ordered_pair :
  forall a b dpr : float,
    (a <=? b)%float = true -> is_nan dpr = false ->
    (clampPixelRatio dpr (Pair a b) =? b)%float = true.
Proof.
  intros a b dpr Hab Hd. simpl.
  destruct (leb_not_nan a b Hab) as [Ha Hb].
  destruct (Math_min_spec a dpr Ha Hd) as [Hm Hle].
  assert (Hn : is_nan (JS.Math_min a dpr) = false)
    by (destruct Hm as [E|E]; rewrite E; assumption).
  pose proof (leb_trans _ _ _ Hle Hab) as Hxb.
  set (x := JS.Math_min a dpr) in *.
  unfold JS.Math_max. rewrite Hn, Hb. simpl.
  destruct (x <? b)%float eqn:Hlt; [now apply eqb_refl|].
  rewrite (leb_ltb_false x b Hxb).
  destruct (get_sign x); [now apply eqb_refl|].
  now apply leb_not_ltb_eqb.
Qed.

Lemma clampPixelRatio_ordered_pair_witness :
  (clampPixelRatio 1.5 (Pair 1 2) =? 2)%float = true.
Proof.
  apply (clampPixelRatio_ordered_pair 1 2 1.5); reflexivity.
Defined.

(** X7.  A NaN anywhere, in the pair or as the device pixel ratio, makes the
    clamped ratio NaN. *)
Theorem clampPixelRatio_nan :
  forall a b dpr : float,
    is_nan a || is_nan b || is_nan dpr = true ->
    clampPixelRatio dpr (Pair a b) = nan.
Proof.
  intros a b dpr H. simpl. apply Math_max_nan.
  destruct (is_nan b); [apply orb_true_r|].
  rewrite orb_false_r in *.
  rewrite (Math_min_nan a dpr); [reflexivity|].
  destruct (is_nan a); simpl in *; [reflexivity|exact H].
Qed.

Lemma clampPixelRatio_nan_witness :
  clampPixelRatio nan (Pair 1 2) = nan.
Proof.
  apply (clampPixelRatio_nan 1 2 nan). reflexivity.
Defined.

(** ** More on the registry *)

Lemma insert_in_front (a : Subscription) (l : list Subscription) :
  Forall (lowerFirst a) l -> JS.insert byPriority a l = a :: l.
Proof.
  intros H. destruct H as [|b l Hb Hl]; simpl; [reflexivity|].
  unfold byPriority, lowerFirst in *.
  destruct (Z.leb_spec (priority a - priority b) 0); [reflexivity|lia].
Qed.

Lemma none_notAbove (p : Z) (l : list Subscription) :
  Forall (fun s => (p < priority s)%Z) l ->
  filter (notAbove p) l = [] /\ filter (above p) l = l.
Proof.
  induction 1 as [|a l Ha Hl [IH1 IH2]]; simpl; [now split|].
  unfold notAbove at 1, above at 1.
  destruct (Z.leb_spec (priority a) p); [lia|]. simpl. now rewrite IH1, IH2.
Qed.

Lemma split_by_priority (p : Z) (l : list Subscription) :
  StronglySorted lowerFirst l ->
  filter (notAbove p) l ++ filter (above p) l = l.
Proof.
  induction 1 as [|a l Hs IH Ha]; simpl; [reflexivity|].
  unfold notAbove at 1, above at 1.
  destruct (Z.leb_spec (priority a) p) as [Hle|Hgt]; simpl.
  - now rewrite IH.
  - destruct (none_notAbove p l) as [E1 E2].
    { eapply Forall_impl; [|exact Ha]. unfold lowerFirst. intros; lia. }
    now rewrite E1, E2.
Qed.

Lemma sort_after_push (e : Subscription) (l : list Subscription) :
  StronglySorted lowerFirst l ->
  JS.Array_sort byPriority (l ++ [e])
  = filter (notAbove (priority e)) l ++ e :: filter (above (priority e)) l.
Proof.
  unfold JS.Array_sort. rewrite fold_right_app. simpl.
  induction 1 as [|a l Hs IH Ha]; simpl; [reflexivity|].
  rewrite IH. unfold notAbove at 2, above at 2.
  destruct (Z.leb_spec (priority a) (priority e)) as [Hle|Hgt]; simpl.
  - apply insert_in_front. apply Forall_app. split.
    + apply Forall_forall. intros s Hin. apply filter_In in Hin.
      rewrite Forall_forall in Ha. now apply Ha.
    + constructor; [exact Hle|].
      apply Forall_forall. intros s Hin. apply filter_In in Hin.
      rewrite Forall_forall in Ha. now apply Ha.
  - destruct (none_notAbove (priority e) l) as [E1 E2].
    { eapply Forall_impl; [|exact Ha]. unfold lowerFirst. intros; lia. }
    rewrite E1, E2. simpl. unfold byPriority at 1.
    destruct (Z.leb_spec (priority a - priority e) 0); [lia|].
    f_equal. now apply insert_in_front.
Qed.

(** X8.  On a registry whose list is in priority order, [subscribe] places
    the new entry after every entry of the same or a lower priority and
    before every entry of a higher one, and moves nothing else. *)
Theorem subscribe_position :
  forall (r : Ref) (p : Z) (i : Internal.t),
    StronglySorted lowerFirst (Internal.subscribers i) ->
    Internal.subscribers (fst (subscribe r p i))
    = filter (notAbove p) (Internal.subscribers i)
      ++ {| ref := r; priority := p |}
      :: filter (above p) (Internal.subscribers i).
Proof.
  intros r p i H. simpl.
  apply (sort_after_push {| ref := r; priority := p |} _ H).
Qed.

Lemma subscribe_position_witness :
  let i := {| Internal.manual := 2;
              Internal.subscribers :=
                [ {| ref := 0; priority := 0 |}; {| ref := 1; priority := 2 |};
                  {| ref := 2; priority := 2 |}; {| ref := 3; priority := 7 |} ] |} in
  Internal.subscribers (fst (subscribe 9 2 i))
  = filter (notAbove 2) (Internal.subscribers i)
    ++ {| ref := 9; priority := 2 |}
    :: filter (above 2) (Internal.subscribers i).
Proof.
  apply (subscribe_position 9 2
           {| Internal.manual := 2;
              Internal.subscribers :=
                [ {| ref := 0; priority := 0 |}; {| ref := 1; priority := 2 |};
                  {| ref := 2; priority := 2 |}; {| ref := 3; priority := 7 |} ] |}).
  simpl. repeat constructor; unfold lowerFirst; simpl; lia.
Defined.

(** X9.  Subscribing a ref that is not yet in a priority-ordered list and
    then calling the returned closure once gives back the [internal] object
    as it was: list and counter. *)
Theorem subscribe_then_unsubscribe :
  forall (r : Ref) (p : Z) (i : Internal.t),
    StronglySorted lowerFirst (Internal.subscribers i) ->
    ~ In r (map ref (Internal.subscribers i)) ->
    unsubscribe (snd (subscribe r p i)) (fst (subscribe r p i)) = i.
Proof.
  intros r p i Hs Hr.
  unfold unsubscribe. rewrite (subscribe_position r p i Hs).
  destruct i as [m l]. simpl in *. f_equal.
  - unfold JS.truthy. destruct (p =? 0)%Z; simpl; lia.
  - change (fun s : Subscription => negb (ref s =? r)%nat) with (keepOthers r).
    rewrite filter_app. simpl. unfold keepOthers at 2. simpl.
    rewrite Nat.eqb_refl. simpl.
    rewrite <- filter_app, (split_by_priority p l Hs).
    now apply keepOthers_all.
Qed.

Lemma subscribe_then_unsubscribe_witness :
  let i := {| Internal.manual := 1;
              Internal.subscribers :=
                [ {| ref := 0; priority := 0 |}; {| ref := 1; priority := 2 |} ] |} in
  unsubscribe (snd (subscribe 5 1 i)) (fst (subscribe 5 1 i)) = i.
Proof.
  apply (subscribe_then_unsubscribe 5 1
           {| Internal.manual := 1;
              Internal.subscribers :=
                [ {| ref := 0; priority := 0 |}; {| ref := 1; priority := 2 |} ] |}).
  - simpl. repeat constructor; unfold lowerFirst; simpl; lia.
  - simpl. intuition discriminate.
Defined.

Lemma subscribe_all_counts (subs : list (Ref * Z)) :
  forall w : Registry,
    manualCount (registryRun (map subscribeOp subs) w)
    = (manualCount w + Z.of_nat (countPriority subs))%Z.
Proof.
  induction subs as [|[r p] subs IH]; intros w.
  - simpl. lia.
  - change (registryRun (map subscribeOp ((r, p) :: subs)) w)
      with (registryRun (map subscribeOp subs) (registryStep w (subscribeOp (r, p)))).
    rewrite IH. unfold countPriority, manualCount. simpl.
    destruct (JS.truthy p); simpl length; lia.
Qed.

Lemma invoke_all_counts (ks : list nat) :
  forall w : Registry,
    let w' := registryRun (map Invoke ks) w in
    issued w' = issued w
    /\ manualCount w'
       = (manualCount w
          - Z.of_nat
              (length
                 (filter
                    (fun k => match nth_error (issued w) k with
                              | Some u => JS.truthy (u_priority u)
                              | None => false
                              end) ks)))%Z.
Proof.
  induction ks as [|k ks IH]; intros w.
  - simpl. split; [reflexivity|lia].
  - change (registryRun (map Invoke (k :: ks)) w)
      with (registryRun (map Invoke ks) (registryStep w (Invoke k))).
    destruct (IH (registryStep w (Invoke k))) as [Hi Hm].
    cbv zeta. rewrite Hi, Hm. clear IH Hi Hm.
    cbn [registryStep filter].
    destruct (nth_error (issued w) k) as [u|]; [|split; reflexivity].
    cbn [issued]. split; [reflexivity|].
    unfold manualCount. simpl.
    destruct (JS.truthy (u_priority u)); simpl length; lia.
Qed.

(** X10.  After any subscriptions on a fresh registry followed by any calls
    of the returned closures, repeated or not, the counter is the number of
    subscriptions made with a priority minus the number of calls of their
    closures: it counts calls, not list entries. *)
Theorem manual_counts_calls :
  forall (subs : list (Ref * Z)) (ks : list nat),
    manualCount (registryRun (map subscribeOp subs ++ map Invoke ks) freshRegistry)
    = (Z.of_nat (countPriority subs) - Z.of_nat (priorityCalls subs ks))%Z.
Proof.
  intros subs ks. rewrite registryRun_app.
  destruct (invoke_all_counts ks (registryRun (map subscribeOp subs) freshRegistry))
    as [_ Hm].
  rewrite Hm, subscribe_all_counts.
  destruct (subscribe_all subs freshRegistry) as [Hi _]. simpl in Hi. rewrite Hi.
  change (manualCount freshRegistry) with 0%Z.
  unfold priorityCalls.
  rewrite (filter_ext
             (fun k => match nth_error (map asClosure subs) k with
                       | Some u => JS.truthy (u_priority u)
                       | None => false
                       end)
             (fun k => match nth_error subs k with
                       | Some s => JS.truthy (snd s)
                       | None => false
                       end)).
  - lia.
  - intros k. rewrite nth_error_map. destruct (nth_error subs k); reflexivity.
Qed.

(** ** More on the governor *)

Lemma setters_keep_governor
    (Math_tan : float -> float) (w h : float) (c : THREE.Camera) (r : PixelRatio)
    (s : Store) :
  (host (setSize Math_tan w h s) = host s
   /\ performance (state (setSize Math_tan w h s)) = performance (state s)
   /\ performanceTimeout (setSize Math_tan w h s) = performanceTimeout s)
  /\ (host (setCamera c s) = host s
      /\ performance (state (setCamera c s)) = performance (state s)
      /\ performanceTimeout (setCamera c s) = performanceTimeout s)
  /\ (host (setPixelRatio r s) = host s
      /\ performance (state (setPixelRatio r s)) = performance (state s)
      /\ performanceTimeout (setPixelRatio r s) = performanceTimeout s).
Proof. repeat split. Qed.



Lemma filter_split_length (A : Type) (f : A -> bool) (l : list A) :
  (length (filter f l) + length (filter (fun a => negb (f a)) l) = length l)%nat.
Proof.
  induction l as [|a l IH]; simpl; [reflexivity|].
  destruct (f a); simpl; lia.
Qed.

Lemma recoveries_step
    (Math_tan : float -> float) (timerDelay : float -> N) (s : Store) (o : StoreOp) :
  oneTimer s ->
  (length (Host.fired (host (storeStep Math_tan timerDelay s o)))
   + length (Host.pending (host (storeStep Math_tan timerDelay s o)))
   <= length (Host.fired (host s)) + length (Host.pending (host s))
      + (if isRegress o then 1 else 0))%nat.
Proof.
  intros H. destruct o as [w h|c|r| |dt]; cbn [storeStep isRegress]; try (simpl; lia).
  - rewrite (regress_pending timerDelay s H).
    destruct (regress_state timerDelay s) as (_ & _ & _ & _ & Hf). rewrite Hf.
    simpl. lia.
  - destruct (elapse_pending dt s) as (Hq & _ & _ & _ & Hf). rewrite Hq, Hf.
    rewrite length_app, length_map.
    rewrite (Permutation_length (Array_sort_perm _ compareDue _)).
    pose proof (filter_split_length _ (isDue (Host.now (host s) + dt))
                  (Host.pending (host s))).
    lia.
Qed.

(** X12.  Recoveries never outnumber [regress] calls: in every state reached
    from construction, the recoveries that have run plus the one that may be
    pending are at most the [regress] calls of the history. *)
Theorem recoveries_at_most_regress_calls :
  forall (Math_tan : float -> float) (timerDelay : float -> N)
         (dpr : float) (props : MockStoreProps) (ops : list StoreOp),
    let s := storeRun Math_tan timerDelay ops (createMockStore Math_tan dpr props) in
    (length (Host.fired (host s)) + length (Host.pending (host s))
     <= countRegress ops)%nat.
Proof.
  intros Math_tan timerDelay dpr props ops s.
  assert (G : forall ops s0,
             oneTimer s0 ->
             (length (Host.fired (host (storeRun Math_tan timerDelay ops s0)))
              + length (Host.pending (host (storeRun Math_tan timerDelay ops s0)))
              <= length (Host.fired (host s0)) + length (Host.pending (host s0))
                 + countRegress ops)%nat).
  { clear. induction ops as [|o ops IH]; intros s0 H0; [simpl; lia|].
    change (storeRun Math_tan timerDelay (o :: ops) s0)
      with (storeRun Math_tan timerDelay ops (storeStep Math_tan timerDelay s0 o)).
    pose proof (IH _ (oneTimer_step Math_tan timerDelay s0 o H0)) as H1.
    pose proof (recoveries_step Math_tan timerDelay s0 o H0) as H2.
    unfold countRegress in *. simpl filter.
    destruct (isRegress o); simpl length; lia. }
  specialize (G ops (createMockStore Math_tan dpr props)
                (oneTimer_reachable Math_tan timerDelay dpr props [])).
  fold s in G. rewrite host_createMockStore in G. simpl in G. exact G.
Qed.

(** *** Bursts of regress calls *)

Lemma armed_oneTimer (timerDelay : float -> N) (f : list N) (p : Performance.t) (s : Store) :
  armed timerDelay f p s -> oneTimer s.
Proof. intros [[n [Hq Ht]] _]. right. eexists. split; [exact Hq|exact Ht]. Qed.

Lemma regress_arms (timerDelay : float -> N) (s : Store) :
  oneTimer s ->
  armed timerDelay (Host.fired (host s)) (performance (state s)) (regress timerDelay s).
Proof.
  intros H. destruct (regress_state timerDelay s) as (Hp & Ht & Hn & _ & Hf).
  unfold armed. rewrite Hp, Hn, Hf, (regress_pending timerDelay s H). simpl.
  repeat split. eexists. split; [reflexivity|exact Ht].
Qed.

Lemma armed_again (timerDelay : float -> N) (f : list N) (p : Performance.t)
    (d : N) (s : Store) :
  armed timerDelay f p s ->
  (d < timerDelay (Performance.debounce p))%N ->
  armed timerDelay f p (regress timerDelay (elapse d s))
  /\ Host.now (host (regress timerDelay (elapse d s))) = (Host.now (host s) + d)%N.
Proof.
  intros [[n [Hq Ht]] (Hf & Hd & Hm)] Hlt.
  destruct (elapse_pending d s) as (Hqe & Hte & Hne & _ & Hfe).
  assert (Hidle : filter (isDue (Host.now (host s) + d)) (Host.pending (host s)) = []).
  { rewrite Hq. simpl. unfold isDue. simpl.
    destruct (N.leb_spec (Host.now (host s) + timerDelay (Performance.debounce p))
                (Host.now (host s) + d)); [lia|reflexivity]. }
  assert (Hkeep : Host.pending (host (elapse d s)) = Host.pending (host s)).
  { rewrite Hqe, Hq. simpl. rewrite Hq in Hidle. simpl in Hidle.
    destruct (isDue (Host.now (host s) + d) _); [discriminate|reflexivity]. }
  rewrite Hidle in Hfe. simpl in Hfe. rewrite app_nil_r in Hfe.
  pose proof (elapse_performance_idle d s Hidle) as Hpe.
  set (se := elapse d s) in *. clearbody se.
  assert (H1 : oneTimer se).
  { right. eexists. split; [rewrite Hkeep; exact Hq|]. now rewrite Hte. }
  destruct (regress_state timerDelay se) as (Hp2 & Ht2 & Hn2 & _ & Hf2).
  pose proof (regress_pending timerDelay se H1) as Hq2.
  split; [|now rewrite Hn2, Hne].
  unfold armed. rewrite Hq2, Hp2, Hf2, Hn2, Hne, Hpe, Hfe, Hd. simpl.
  repeat split; try assumption.
  eexists. split; [reflexivity|exact Ht2].
Qed.

Lemma burst_keeps_armed (timerDelay : float -> N) (Math_tan : float -> float)
    (f : list N) (p : Performance.t) (ds : list N) :
  forall s : Store,
    armed timerDelay f p s ->
    Forall (fun d => (d < timerDelay (Performance.debounce p))%N) ds ->
    let s' := storeRun Math_tan timerDelay
                (flat_map (fun d => [Elapse d; Regress]) ds) s in
    armed timerDelay f p s'
    /\ Host.now (host s') = (Host.now (host s) + sumN ds)%N.
Proof.
  induction ds as [|d ds IH]; intros s Ha Hds.
  - simpl. split; [exact Ha|lia].
  - inversion Hds as [|x xs Hd Hds']; subst.
    destruct (armed_again timerDelay f p d s Ha Hd) as [Ha1 Hn1].
    destruct (IH _ Ha1 Hds') as [Ha2 Hn2].
    change (storeRun Math_tan timerDelay
              (flat_map (fun d => [Elapse d; Regress]) (d :: ds)) s)
      with (storeRun Math_tan timerDelay
              (flat_map (fun d => [Elapse d; Regress]) ds)
              (regress timerDelay (elapse d s))).
    cbv zeta. split; [exact Ha2|]. rewrite Hn2, Hn1. simpl. lia.
Qed.

Lemma armed_recovers (timerDelay : float -> N) (f : list N) (p : Performance.t)
    (e : N) (s : Store) :
  armed timerDelay f p s ->
  (timerDelay (Performance.debounce p) <= e)%N ->
  Host.fired (host (elapse e s))
  = f ++ [(Host.now (host s) + timerDelay (Performance.debounce p))%N]
  /\ Host.pending (host (elapse e s)) = []
  /\ Performance.current (performance (state (elapse e s))) = Performance.max p.
Proof.
  intros [[n [Hq Ht]] (Hf & Hd & Hm)] Hle.
  destruct (elapse_pending e s) as (Hqe & _ & _ & _ & Hfe).
  assert (Hdue : isDue (Host.now (host s) + e)
                   {| Host.id := n;
                      Host.due := (Host.now (host s)
                                   + timerDelay (Performance.debounce p))%N |} = true).
  { unfold isDue. simpl. apply N.leb_le. lia. }
  assert (Hone : filter (isDue (Host.now (host s) + e)) (Host.pending (host s))
                 = [ {| Host.id := n;
                        Host.due := (Host.now (host s)
                                     + timerDelay (Performance.debounce p))%N |} ]).
  { rewrite Hq. simpl. now rewrite Hdue. }
  rewrite Hone in Hfe. simpl in Hfe.
  rewrite Hq in Hqe. simpl in Hqe. rewrite Hdue in Hqe. simpl in Hqe.
  rewrite (elapse_performance_fire e _ s Hone). simpl.
  rewrite Hfe, Hf, Hqe, Hm. repeat split.
Qed.

(** X13.  Debouncing holds for bursts of any length: from any state reached
    from construction, a [regress] followed by any number of further
    [regress] calls, each less than a debounce delay after the one before,
    and then a wait of at least the delay, runs exactly one recovery, timed
    a debounce delay after the last call, and ends with [current] at [max]
    and nothing pending. *)
Theorem regress_burst_recovers_once :
  forall (Math_tan : float -> float) (timerDelay : float -> N)
         (dpr : float) (props : MockStoreProps) (ops : list StoreOp)
         (ds : list N) (e : N),
    let s := storeRun Math_tan timerDelay ops (createMockStore Math_tan dpr props) in
    let p := performance (state s) in
    let D := timerDelay (Performance.debounce p) in
    Forall (fun d => (d < D)%N) ds ->
    (D <= e)%N ->
    let s' := storeRun Math_tan timerDelay (regressBurst ds e) s in
    Host.fired (host s')
    = Host.fired (host s) ++ [(Host.now (host s) + sumN ds + D)%N]
    /\ Host.pending (host s') = []
    /\ Performance.current (performance (state s')) = Performance.max p.
Proof.
  intros Math_tan timerDelay dpr props ops ds e s p D Hds He s'.
  assert (H0 : oneTimer s) by apply oneTimer_reachable.
  clearbody s.
  pose proof (regress_arms timerDelay s H0) as Ha.
  assert (Hn : Host.now (host (regress timerDelay s)) = Host.now (host s))
    by apply (regress_state timerDelay s).
  fold p in Ha.
  destruct (burst_keeps_armed timerDelay Math_tan _ p ds _ Ha Hds) as [Ha' Hn'].
  unfold s', regressBurst.
  change (storeRun Math_tan timerDelay
            (Regress :: flat_map (fun d => [Elapse d; Regress]) ds ++ [Elapse e]) s)
    with (storeRun Math_tan timerDelay
            (flat_map (fun d => [Elapse d; Regress]) ds ++ [Elapse e])
            (regress timerDelay s)).
  unfold storeRun at 1 2 3. rewrite fold_left_app.
  fold (storeRun Math_tan timerDelay (flat_map (fun d => [Elapse d; Regress]) ds)
          (regress timerDelay s)).
  set (sb := storeRun Math_tan timerDelay
               (flat_map (fun d => [Elapse d; Regress]) ds) (regress timerDelay s)) in *.
  cbn [fold_left storeStep].
  destruct (armed_recovers timerDelay _ p e sb Ha' He) as (Hf & Hq & Hc).
  rewrite Hf, Hq, Hc, Hn', Hn. repeat split.
Qed.

Lemma regress_burst_recovers_once_witness :
  let s := storeRun (fun x => x) (fun _ => 200%N) [Regress; Elapse 50]
             (createMockStore (fun x => x) 1 noProps) in
  let s' := storeRun (fun x => x) (fun _ => 200%N)
              (regressBurst [120; 199; 0; 30]%N 200) s in
  Host.fired (host s') = Host.fired (host s) ++ [(50 + 349 + 200)%N]
  /\ Host.pending (host s') = []
  /\ Performance.current (performance (state s')) = 1%float.
Proof.
  apply (regress_burst_recovers_once (fun x => x) (fun _ => 200%N) 1 noProps
           [Regress; Elapse 50] [120; 199; 0; 30]%N 200).
  - repeat constructor.
  - vm_compute. discriminate.
Defined.

(** ** The resize listener *)

Lemma binary_round_aux_opp (s : bool) (m e : Z) (l : location) :
  binary_round_aux prec emax (negb s) m e l
  = SFopp (binary_round_aux prec emax s m e l).
Proof.
  unfold binary_round_aux.
  destruct (shr_fexp prec emax m e l) as [mrs e'].
  destruct (shr_fexp prec emax _ e' loc_Exact) as [mrs' e''].
  destruct (shr_m mrs'); try reflexivity.
  destruct (e'' <=? emax - prec)%Z; reflexivity.
Qed.

Lemma SFdiv_opp_r (x : spec_float) (s : bool) (m : positive) (e : Z) :
  SF64div x (S754_finite (negb s) m e) = SFopp (SF64div x (S754_finite s m e)).
Proof.
  unfold SF64div, SFdiv.
  destruct x as [sx|sx| |sx mx ex]; try reflexivity.
  - destruct sx, s; reflexivity.
  - destruct sx, s; reflexivity.
  - destruct (SFdiv_core_binary prec emax (Z.pos mx) ex (Z.pos m) e) as [[mz ez] lz].
    rewrite <- binary_round_aux_opp. destruct sx, s; reflexivity.
Qed.

(** Dividing by -2 is dividing by 2 and changing the sign, exactly. *)
Lemma div_minus_two (a : float) : (a / (-2))%float = (- (a / 2))%float.
Proof.
  apply Prim2SF_inj. rewrite opp_spec, !div_spec.
  assert (E : exists m e, Prim2SF 2%float = S754_finite false m e
                          /\ Prim2SF (-2)%float = S754_finite true m e).
  { vm_compute. eauto. }
  destruct E as (m & e & E2 & Em2). rewrite E2, Em2.
  apply (SFdiv_opp_r (Prim2SF a) false m e).
Qed.

(** X14.  When [updateCamera] is on and the camera is orthographic, the
    frustum the resize listener writes is centred for every size: left is
    exactly minus right and bottom exactly minus top, with right and top
    half the width and half the height; the aspect property is left as it
    was. *)
Theorem resize_listener_centres_frustum :
  forall (st : RootState) (pr : Projection.t),
    updateCamera st = true ->
    isOrthographicCamera (camera st) = true ->
    let q := resizeListener st pr in
    Projection.left q = (- Projection.right q)%float
    /\ Projection.bottom q = (- Projection.top q)%float
    /\ Projection.right q = (Size.width (size st) / 2)%float
    /\ Projection.top q = (Size.height (size st) / 2)%float
    /\ Projection.aspect q = Projection.aspect pr.
Proof.
  intros st pr Hu Ho. unfold resizeListener. rewrite Hu, Ho. simpl.
  repeat split; apply div_minus_two.
Qed.

Lemma resize_listener_centres_frustum_witness :
  let st := state (createMockStore (fun x => x) 1
                     (mkProps (Some (Size.mk 300 150)) None None None (Some true)
                        None None None Performance.noOverride None)) in
  let q := resizeListener st (Projection.mk 0 0 0 0 0) in
  Projection.left q = (- Projection.right q)%float
  /\ Projection.bottom q = (- Projection.top q)%float
  /\ Projection.right q = (Size.width (size st) / 2)%float
  /\ Projection.top q = (Size.height (size st) / 2)%float
  /\ Projection.aspect q = 0%float.
Proof.
  apply (resize_listener_centres_frustum
           (state (createMockStore (fun x => x) 1
                     (mkProps (Some (Size.mk 300 150)) None None None (Some true)
                        None None None Performance.noOverride None)))
           (Projection.mk 0 0 0 0 0)); reflexivity.
Defined.

Lemma aspect_getCurrentViewport
    (Math_tan : float -> float) (c : THREE.Camera) (t : THREE.Vector3) (sz : Size.t) :
  Geometry.aspect (getCurrentViewport Math_tan c t sz)
  = (Size.width sz / Size.height sz)%float.
Proof. unfold getCurrentViewport. destruct (isOrthographicCamera c); reflexivity. Qed.

(** X15.  For a store constructed with a size, in every state reached
    afterwards, whichever camera has been set: when [updateCamera] is on and
    the current camera is a perspective camera, the aspect the resize
    listener writes to it is the stored [viewport.aspect]. *)
Theorem resize_listener_aspect_is_viewport_aspect :
  forall (Math_tan : float -> float) (timerDelay : float -> N)
         (dpr : float) (props : MockStoreProps) (ops : list StoreOp)
         (pr : Projection.t),
    p_size props <> None ->
    let s := storeRun Math_tan timerDelay ops (createMockStore Math_tan dpr props) in
    updateCamera (state s) = true ->
    isOrthographicCamera (camera (state s)) = false ->
    Projection.aspect (resizeListener (state s) pr)
    = Viewport.aspect (viewport (state s)).
Proof.
  intros Math_tan timerDelay dpr props ops pr Hsz s Hu Hp.
  unfold resizeListener. rewrite Hu, Hp. simpl.
  assert (H : geometryOf (viewport (state s))
              = getCurrentViewport Math_tan (closureCamera s) defaultTarget (size (state s))).
  { apply recomputed_run. unfold createMockStore.
    destruct (p_size props) as [sz|]; [apply geometryOf_spread|contradiction]. }
  change (Viewport.aspect (viewport (state s)))
    with (Geometry.aspect (geometryOf (viewport (state s)))).
  now rewrite H, aspect_getCurrentViewport.
Qed.

Lemma resize_listener_aspect_is_viewport_aspect_witness :
  let props :=
    mkProps (Some (Size.mk 200 100)) None None None None None None None
      Performance.noOverride None in
  let s := storeRun (fun x => x) (fun _ => 200%N)
             [SetCamera (THREE.PerspectiveCamera (THREE.vec3 1 2 3) 50 1);
              SetSize 640 480; Regress]
             (createMockStore (fun x => x) 1 props) in
  Projection.aspect (resizeListener (state s) (Projection.mk 0 0 0 0 0))
  = Viewport.aspect (viewport (state s)).
Proof.
  apply (resize_listener_aspect_is_viewport_aspect (fun x => x) (fun _ => 200%N) 1
           (mkProps (Some (Size.mk 200 100)) None None None None None None None
              Performance.noOverride None)
           [SetCamera (THREE.PerspectiveCamera (THREE.vec3 1 2 3) 50 1);
            SetSize 640 480; Regress]
           (Projection.mk 0 0 0 0 0)).
  - discriminate.
  - reflexivity.
  - reflexivity.
Defined.

(** ** The bounds of the governor *)

(** X17.  The bounds and the debounce delay are fixed at construction: in
    every state reached afterwards [performance.min], [performance.max] and
    [performance.debounce] are the constructed values, and
    [performance.current] is the constructed value, [min] or [max]. *)
Theorem performance_bounds_fixed_at_construction :
  forall (Math_tan : float -> float) (timerDelay : float -> N)
         (dpr : float) (props : MockStoreProps) (ops : list StoreOp),
    let p0 := Performance.initial (p_performance props) in
    let p := performance (state (storeRun Math_tan timerDelay ops
                                   (createMockStore Math_tan dpr props))) in
    Performance.min p = Performance.min p0
    /\ Performance.max p = Performance.max p0
    /\ Performance.debounce p = Performance.debounce p0
    /\ (Performance.current p = Performance.current p0
        \/ Performance.current p = Performance.min p0
        \/ Performance.current p = Performance.max p0).
Proof.
  intros Math_tan timerDelay dpr props ops p0 p.
  exact (governed_reachable Math_tan timerDelay dpr props ops).
Qed.
